(** * Signaling broker: device registry and event router

    A shallow embedding of the Socket.IO connection handler of the
    parental-control backend (the version that keeps a [devices] map and
    routes commands by [targetId]), with proofs about the registry and the
    routing policy.

    Conventions of the embedding.
    - The [devices] map is a JavaScript [Map]: an insertion-ordered
      dictionary.  It is an association list without duplicate keys;
      [Map_set] overwrites in place or appends, as [Map.prototype.set] does,
      and [getDeviceIdBySocketId] scans it in iteration order.
    - A handler is a computation in the monad [M]: it reads and writes the
      shared [devices] map, appends to the list of emitted events and may
      throw.  What was written or emitted before a throw stays.
    - [JSON.parse] and [JSON.stringify] belong to the JavaScript runtime:
      they are the methods of the class [JSRuntime], and the theorems hold
      for every runtime.
    - [console.log] prints nothing here, but its argument is evaluated: a
      property read or a string conversion in it can throw.
    - [Date.now()] and [new Date()] read a clock that is passed in. *)

From Stdlib Require Import String Ascii List ZArith Bool Lia DecimalString.
From ExtLib Require Import Structures.Monad Data.Monads.EitherMonad.
Import ListNotations.
Import MonadNotation.

Local Open Scope list_scope.
Local Open Scope string_scope.
Local Open Scope monad_scope.

(* ===================================================================== *)
(** ** JavaScript values *)
(* ===================================================================== *)

(** The JSON values a Socket.IO client can put on the wire, and [undefined]
    for an argument that was not sent; binary attachments are left out.
    Numbers are the integral ones (millisecond timestamps, counters); the
    handlers only test a number for truthiness or convert it to a string. *)
#[warnings="-register-all"]
Inductive value : Type :=
| VUndefined
| VNull
| VBool (b : bool)
| VNum (n : Z)
| VStr (s : string)
| VArr (items : list value)
| VObj (fields : list (string * value)).

Inductive exn : Type :=
| TypeError
| SyntaxError.

(** [if (v)]: ToBoolean. *)
Definition truthy (v : value) : bool :=
  match v with
  | VUndefined | VNull => false
  | VBool b => b
  | VNum n => negb (n =? 0)%Z
  | VStr s => negb (s =? "")
  | VArr _ | VObj _ => true
  end.

Fixpoint own_property (fields : list (string * value)) (p : string) : value :=
  match fields with
  | [] => VUndefined
  | (k, v) :: rest => if k =? p then v else own_property rest p
  end.

(** [v.p] for the property names the handlers read ([targetId], [offer],
    [candidate], [config], [status], [quality]): none of them is defined on
    a prototype, so only an object's own property can answer; reading a
    property of [undefined] or [null] throws a TypeError. *)
Definition get_prop (v : value) (p : string) : exn + value :=
  match v with
  | VUndefined | VNull => inl TypeError
  | VObj fields => inr (own_property fields p)
  | _ => inr VUndefined
  end.

(** [a || b] *)
Definition js_or (a b : value) : value := if truthy a then a else b.

Definition has_own_property (fields : list (string * value)) (p : string)
  : bool :=
  existsb (fun kv => fst kv =? p) fields.

Definition string_of_Z (n : Z) : string :=
  NilZero.string_of_int (Z.to_int n).

(** String conversion, as a template literal or [+] with a string does it.
    An array is joined with commas, [undefined] and [null] elements giving
    the empty string; an object gives ["[object Object]"], unless it has an
    own [toString] property: off the wire that is never a function, and the
    conversion throws a TypeError ([None]). *)
Fixpoint ToString (v : value) : option string :=
  match v with
  | VUndefined => Some "undefined"
  | VNull => Some "null"
  | VBool true => Some "true"
  | VBool false => Some "false"
  | VNum n => Some (string_of_Z n)
  | VStr s => Some s
  | VArr items =>
      (fix join (l : list value) : option string :=
         match l with
         | [] => Some ""
         | x :: rest =>
             let sx := match x with
                       | VUndefined | VNull => Some ""
                       | _ => ToString x
                       end in
             match rest with
             | [] => sx
             | _ :: _ =>
                 match sx, join rest with
                 | Some a, Some b => Some (a ++ "," ++ b)
                 | _, _ => None
                 end
             end
         end) items
  | VObj fields =>
      if has_own_property fields "toString" then None
      else Some "[object Object]"
  end.

Definition to_string (v : value) : exn + string :=
  match ToString v with
  | Some s => inr s
  | None => inl TypeError
  end.

(** The runtime functions the handlers call. [JSON_parse] answers [None]
    where [JSON.parse] throws a SyntaxError; [JSON_stringify] answers a
    string, or [undefined] (for [undefined] itself). *)
Class JSRuntime : Type := {
  JSON_parse : string -> option value;
  JSON_stringify : value -> value
}.

(* ===================================================================== *)
(** ** The device registry: [const devices = new Map()] *)
(* ===================================================================== *)

(** A key of [devices] is [socket.handshake.query.deviceId]: a string, or
    [undefined] ([None]) when the query has no [deviceId]. *)
Definition key : Type := option string.

Definition key_eqb (a b : key) : bool :=
  match a, b with
  | None, None => true
  | Some x, Some y => x =? y
  | _, _ => false
  end.

Definition key_value (k : key) : value :=
  match k with
  | Some s => VStr s
  | None => VUndefined
  end.

(** The key a value given by a client can be equal to (SameValueZero): a
    number, a boolean or [null] is equal to no string, and an array or an
    object that came off the wire is a fresh reference. *)
Definition value_key (v : value) : option key :=
  match v with
  | VStr s => Some (Some s)
  | VUndefined => Some None
  | _ => None
  end.

(** The object stored for a device; [lastSeen] is absent until a heartbeat
    sets it. *)
Record device : Type := Device {
  socketId : string;
  name : string;
  connectedAt : Z;
  lastSeen : option Z
}.

(** [device.lastSeen = t] *)
Definition set_lastSeen (d : device) (t : Z) : device :=
  {| socketId := socketId d; name := name d;
     connectedAt := connectedAt d; lastSeen := Some t |}.

Definition registry : Type := list (key * device).

Fixpoint Map_get (m : registry) (k : key) : option device :=
  match m with
  | [] => None
  | (k', d) :: rest => if key_eqb k' k then Some d else Map_get rest k
  end.

Definition Map_has (m : registry) (k : key) : bool :=
  match Map_get m k with
  | Some _ => true
  | None => false
  end.

Fixpoint Map_set (m : registry) (k : key) (d : device) : registry :=
  match m with
  | [] => [(k, d)]
  | (k', d') :: rest =>
      if key_eqb k' k then (k', d) :: rest else (k', d') :: Map_set rest k d
  end.

Fixpoint Map_delete (m : registry) (k : key) : registry :=
  match m with
  | [] => []
  | (k', d') :: rest =>
      if key_eqb k' k then rest else (k', d') :: Map_delete rest k
  end.

(** [devices.get(v)] for a value [v] sent by a client. *)
Definition Map_get_value (m : registry) (v : value) : option device :=
  match value_key v with
  | Some k => Map_get m k
  | None => None
  end.

(** [getDeviceIdBySocketId]: the id of the first entry, in iteration order,
    whose [socketId] is the given one; [None] is the [null] it returns when
    there is none. *)
Fixpoint getDeviceIdBySocketId (devices : registry) (sid : string)
  : option key :=
  match devices with
  | [] => None
  | (id, d) :: rest =>
      if socketId d =? sid then Some id
      else getDeviceIdBySocketId rest sid
  end.

(* ===================================================================== *)
(** ** Emitted events *)
(* ===================================================================== *)

(** The four ways the handlers send:
    [socket.emit], [socket.broadcast.emit], [io.emit], [io.to(room).emit]. *)
Inductive address : Type :=
| ToSocket (sid : string)
| ToOthers (sid : string)
| ToAll
| ToRoom (room : string).

(** The arguments after the event name: none, one value, or the roster
    [Array.from(devices.entries())]. *)
Inductive payload : Type :=
| NoArgs
| Data (v : value)
| DeviceList (entries : list (key * device)).

Record emission : Type := Emission {
  dest : address;
  event : string;
  args : payload
}.

(* ===================================================================== *)
(** ** The handler monad *)
(* ===================================================================== *)

Record outcome (A : Type) : Type := Outcome {
  store : registry;
  sent : list emission;
  result : exn + A
}.
Arguments Outcome {A}.
Arguments store {A}.
Arguments sent {A}.
Arguments result {A}.

Definition M (A : Type) : Type := registry -> outcome A.

Definition M_ret {A} (a : A) : M A :=
  fun devices => Outcome devices [] (inr a).

Definition M_bind {A B} (m : M A) (k : A -> M B) : M B :=
  fun devices =>
    let o := m devices in
    match result o with
    | inl e => Outcome (store o) (sent o) (inl e)
    | inr a =>
        let o' := k a (store o) in
        Outcome (store o') (sent o ++ sent o')%list (result o')
    end.

#[export] Instance Monad_M : Monad M :=
  {| ret := @M_ret; bind := @M_bind |}.

Definition throw {A} (e : exn) : M A :=
  fun devices => Outcome devices [] (inl e).

Definition lift {A} (r : exn + A) : M A :=
  match r with
  | inl e => throw e
  | inr a => ret a
  end.

Definition read_devices : M registry :=
  fun devices => Outcome devices [] (inr devices).

Definition write_devices (m : registry) : M unit :=
  fun _ => Outcome m [] (inr tt).

Definition emit (a : address) (ev : string) (p : payload) : M unit :=
  fun devices => Outcome devices [Emission a ev p] (inr tt).

Definition devices_set (k : key) (d : device) : M unit :=
  m <- read_devices ;; write_devices (Map_set m k d).

Definition devices_delete (k : key) : M unit :=
  m <- read_devices ;; write_devices (Map_delete m k).

Definition devices_entries : M payload :=
  m <- read_devices ;; ret (DeviceList m).

(* ===================================================================== *)
(** ** Sockets *)
(* ===================================================================== *)

(** [socket.handshake.query]: each parameter is a string or absent. *)
Record handshake : Type := Handshake {
  query_type : option string;
  query_deviceId : option string;
  query_name : option string
}.

Record socket : Type := Socket {
  id : string;
  query : handshake
}.

(** [type === 'device'] *)
Definition is_device (s : socket) : bool :=
  match query_type (query s) with
  | Some t => t =? "device"
  | None => false
  end.

(** [socket.handshake.query.name || 'Unknown Device'] *)
Definition display_name (s : socket) : string :=
  match query_name (query s) with
  | Some n => if n =? "" then "Unknown Device" else n
  | None => "Unknown Device"
  end.

Definition socket_emit (s : socket) := emit (ToSocket (id s)).
Definition socket_broadcast_emit (s : socket) := emit (ToOthers (id s)).
Definition io_emit := emit ToAll.
Definition io_to_emit (room : string) := emit (ToRoom room).

(* ===================================================================== *)
(** ** [io.on('connection', (socket) => ...)] *)
(* ===================================================================== *)

(** The body run when [socket] connects; [now] is the [new Date()] stored
    as [connectedAt]. *)
Definition on_connection (now : Z) (socket : socket) : M unit :=
  if is_device socket then
    let deviceId := query_deviceId (query socket) in
    let name := display_name socket in
    devices_set deviceId
      {| socketId := id socket; name := name;
         connectedAt := now; lastSeen := None |} ;;
    roster <- devices_entries ;;
    socket_broadcast_emit socket "device_list_update" roster
  else
    roster <- devices_entries ;;
    socket_emit socket "device_list_update" roster.

(** The ['disconnect'] listener that [on_connection] registered for
    [socket]: the device branch closes over [deviceId]; the other branch
    only logs. *)
Definition on_disconnect (socket : socket) : M unit :=
  if is_device socket then
    let deviceId := query_deviceId (query socket) in
    devices_delete deviceId ;;
    roster <- devices_entries ;;
    socket_broadcast_emit socket "device_list_update" roster
  else
    ret tt.

(** The default of the parameter [data = null]: it applies when the
    argument is missing or [undefined]. *)
Definition default_null (data : value) : value :=
  match data with VUndefined => VNull | _ => data end.

(** [sendToDevice(targetId, event, data = null)] *)
Definition sendToDevice (targetId : value) (event : string) (data : value)
  : M unit :=
  let data := default_null data in
  devices <- read_devices ;;
  match Map_get_value devices targetId with
  | Some device =>
      if negb (socketId device =? "")
      then io_to_emit (socketId device) event (Data data)
      else ret tt
  | None => ret tt
  end.

(** The events a client can send, each with the argument its listener
    takes ([VUndefined] when the client sent none).  The argument of
    [heartbeat] is the client's [Date.now()]. *)
Inductive inbound : Type :=
| audio_stream (data : value)
| video_frame (data : value)
| status_update (status : value)
| get_status (targetId : value)
| start_monitoring (targetId : value)
| stop_monitoring (targetId : value)
| request_camera_start (targetId : value)
| camera_ready (deviceId : value)
| camera_status (data : value)
| start_video (targetId : value)
| stop_video (targetId : value)
| switch_camera (targetId : value)
| update_video_quality (data : value)
| toggle_flash (targetId : value)
| toggle_front_flash (targetId : value)
| toggle_back_flash (targetId : value)
| hide_app (targetId : value)
| show_app (targetId : value)
| brightness_up (targetId : value)
| brightness_down (targetId : value)
| START_MANUAL_RECORDING (targetId : value)
| STOP_MANUAL_RECORDING (targetId : value)
| update_config (data : value)
| get_config (targetId : value)
| get_storage_stats (targetId : value)
| hide_app_icon (targetId : value)
| show_app_icon (targetId : value)
| get_permissions (targetId : value)
| permission_report (data : value)
| current_config (config : value)
| storage_stats (stats : value)
| heartbeat (timestamp : Z)
| log (message : value)
| webrtc_offer (data : value)
| webrtc_answer (data : value)
| webrtc_ice_candidate (data : value).

(** What evaluating the argument of the listener's [console.log] line, its
    first statement, does: nothing, or a throw. *)
Definition console_log (ev : inbound) : exn + unit :=
  match ev with
  | request_camera_start targetId
  | hide_app targetId
  | show_app targetId =>
      match to_string targetId with inl e => inl e | inr _ => inr tt end
  | camera_ready deviceId =>
      match to_string deviceId with inl e => inl e | inr _ => inr tt end
  | camera_status data =>
      match get_prop data "status" with
      | inl e => inl e
      | inr status =>
          match to_string status with inl e => inl e | inr _ => inr tt end
      end
  | update_video_quality data =>
      match get_prop data "quality" with
      | inl e => inl e
      | inr quality =>
          match to_string quality with inl e => inl e | inr _ => inr tt end
      end
  | _ => inr tt
  end.

Section Handlers.

Context {runtime : JSRuntime}.

(** [typeof data === 'string' ? JSON.parse(data) : data] *)
Definition parse_if_string (data : value) : M value :=
  match data with
  | VStr s =>
      match JSON_parse s with
      | Some v => ret v
      | None => throw SyntaxError
      end
  | _ => ret data
  end.

(** [try { if (typeof data === 'string') payload = JSON.parse(data); }
     catch (e) { }] starting from [payload = data]. *)
Definition try_parse_if_string (data : value) : value :=
  match data with
  | VStr s =>
      match JSON_parse s with
      | Some v => v
      | None => data
      end
  | _ => data
  end.

(** The listeners that [on_connection] registers on every socket, one
    branch for each [socket.on].  [clock i] is the i-th reading of the
    system clock during the run of the listener. *)
Definition on_event (clock : nat -> Z) (socket : socket) (ev : inbound)
  : M unit :=
  lift (console_log ev) ;;
  match ev with
  | audio_stream data =>
      devices <- read_devices ;;
      let deviceId := getDeviceIdBySocketId devices (id socket) in
      match deviceId with
      | Some k =>
          if truthy (key_value k)
          then io_emit "audio_data"
                 (Data (VObj [("deviceId", key_value k); ("data", data)]))
          else ret tt
      | None => ret tt
      end
  | video_frame data =>
      devices <- read_devices ;;
      let deviceId := getDeviceIdBySocketId devices (id socket) in
      match deviceId with
      | Some k =>
          if truthy (key_value k)
          then io_emit "video_data"
                 (Data (VObj [("deviceId", key_value k); ("data", data)]))
          else ret tt
      | None => ret tt
      end
  | status_update status =>
      text <- lift (to_string status) ;;
      io_emit "server_log" (Data (VStr ("App Status: " ++ text)))
  | get_status targetId =>
      if truthy targetId then sendToDevice targetId "GET_STATUS" VUndefined
      else socket_broadcast_emit socket "GET_STATUS" NoArgs
  | start_monitoring targetId =>
      if truthy targetId then sendToDevice targetId "START_AUDIO" VUndefined
      else socket_broadcast_emit socket "START_AUDIO" NoArgs
  | stop_monitoring targetId =>
      if truthy targetId then sendToDevice targetId "STOP_AUDIO" VUndefined
      else socket_broadcast_emit socket "STOP_AUDIO" NoArgs
  | request_camera_start targetId =>
      if truthy targetId
      then sendToDevice targetId "REQUEST_CAMERA_START" VUndefined
      else ret tt
  | camera_ready deviceId =>
      socket_broadcast_emit socket "camera_ready" (Data deviceId)
  | camera_status data =>
      socket_broadcast_emit socket "camera_status" (Data data)
  | start_video targetId =>
      if truthy targetId then sendToDevice targetId "START_CAM" VUndefined
      else socket_broadcast_emit socket "START_CAM" NoArgs
  | stop_video targetId =>
      if truthy targetId then sendToDevice targetId "STOP_CAM" VUndefined
      else socket_broadcast_emit socket "STOP_CAM" NoArgs
  | switch_camera targetId =>
      if truthy targetId then sendToDevice targetId "SWITCH_CAM" VUndefined
      else socket_broadcast_emit socket "SWITCH_CAM" NoArgs
  | update_video_quality data =>
      targetId <- lift (get_prop data "targetId") ;;
      if truthy targetId
      then sendToDevice targetId "UPDATE_VIDEO_QUALITY" data
      else ret tt
  | toggle_flash targetId =>
      if truthy targetId then sendToDevice targetId "TOGGLE_FLASH" VUndefined
      else socket_broadcast_emit socket "TOGGLE_FLASH" NoArgs
  | toggle_front_flash targetId =>
      if truthy targetId
      then sendToDevice targetId "TOGGLE_FRONT_FLASH" VUndefined
      else ret tt
  | toggle_back_flash targetId =>
      if truthy targetId
      then sendToDevice targetId "TOGGLE_BACK_FLASH" VUndefined
      else ret tt
  | hide_app targetId =>
      if truthy targetId then sendToDevice targetId "HIDE_APP" VUndefined
      else ret tt
  | show_app targetId =>
      if truthy targetId then sendToDevice targetId "SHOW_APP" VUndefined
      else ret tt
  | brightness_up targetId =>
      if truthy targetId then sendToDevice targetId "BRIGHTNESS_UP" VUndefined
      else socket_broadcast_emit socket "BRIGHTNESS_UP" NoArgs
  | brightness_down targetId =>
      if truthy targetId
      then sendToDevice targetId "BRIGHTNESS_DOWN" VUndefined
      else socket_broadcast_emit socket "BRIGHTNESS_DOWN" NoArgs
  | START_MANUAL_RECORDING targetId =>
      if truthy targetId
      then sendToDevice targetId "START_MANUAL_RECORDING" VUndefined
      else ret tt
  | STOP_MANUAL_RECORDING targetId =>
      if truthy targetId
      then sendToDevice targetId "STOP_MANUAL_RECORDING" VUndefined
      else ret tt
  | update_config data =>
      targetId <- lift (get_prop data "targetId") ;;
      if truthy targetId then
        config <- lift (get_prop data "config") ;;
        sendToDevice targetId "UPDATE_CONFIG" config
      else
        socket_broadcast_emit socket "UPDATE_CONFIG" (Data data)
  | get_config targetId =>
      if truthy targetId then sendToDevice targetId "GET_CONFIG" VUndefined
      else ret tt
  | get_storage_stats targetId =>
      if truthy targetId
      then sendToDevice targetId "GET_STORAGE_STATS" VUndefined
      else ret tt
  | hide_app_icon targetId =>
      if truthy targetId
      then sendToDevice targetId "HIDE_APP_ICON" VUndefined
      else ret tt
  | show_app_icon targetId =>
      if truthy targetId
      then sendToDevice targetId "SHOW_APP_ICON" VUndefined
      else ret tt
  | get_permissions targetId =>
      if truthy targetId
      then sendToDevice targetId "GET_PERMISSIONS" VUndefined
      else ret tt
  | permission_report data =>
      devices <- read_devices ;;
      let deviceId := getDeviceIdBySocketId devices (id socket) in
      match deviceId with
      | Some k =>
          if truthy (key_value k)
          then io_emit "permission_report"
                 (Data (VObj [("deviceId", key_value k); ("report", data)]))
          else ret tt
      | None => ret tt
      end
  | current_config config =>
      socket_broadcast_emit socket "current_config" (Data config)
  | storage_stats stats =>
      socket_broadcast_emit socket "storage_stats" (Data stats)
  | heartbeat timestamp =>
      socket_emit socket "pong_response"
        (Data (VObj [("serverTime", VNum (clock 0%nat));
                     ("clientTime", VNum timestamp);
                     ("latency", VNum (clock 1%nat - timestamp))])) ;;
      devices <- read_devices ;;
      let deviceId := getDeviceIdBySocketId devices (id socket) in
      match deviceId with
      | Some k =>
          if truthy (key_value k) && Map_has devices k then
            match Map_get devices k with
            | Some device =>
                devices_set k (set_lastSeen device (clock 2%nat))
            | None => ret tt
            end
          else ret tt
      | None => ret tt
      end
  | log message =>
      devices <- read_devices ;;
      let deviceId := getDeviceIdBySocketId devices (id socket) in
      let who := match deviceId with
                 | Some (Some s) => if s =? "" then "unknown" else s
                 | _ => "unknown"
                 end in
      text <- lift (to_string message) ;;
      io_emit "server_log" (Data (VStr ("[" ++ who ++ "] " ++ text)))
  | webrtc_offer data =>
      payload <- parse_if_string data ;;
      targetId <- lift (get_prop payload "targetId") ;;
      if truthy targetId then
        offer <- lift (get_prop payload "offer") ;;
        sendToDevice targetId "webrtc_offer"
          (JSON_stringify (js_or offer payload))
      else
        socket_broadcast_emit socket "webrtc_offer" (Data data)
  | webrtc_answer data =>
      socket_broadcast_emit socket "webrtc_answer" (Data data)
  | webrtc_ice_candidate data =>
      let payload := try_parse_if_string data in
      targetId <- lift (get_prop payload "targetId") ;;
      if truthy targetId then
        candidate <- lift (get_prop payload "candidate") ;;
        let candidateStr := match candidate with
                            | VStr _ => candidate
                            | _ => JSON_stringify candidate
                            end in
        sendToDevice targetId "webrtc_ice_candidate" candidateStr
      else
        socket_broadcast_emit socket "webrtc_ice_candidate" (Data data)
  end.

End Handlers.

(* ===================================================================== *)
(** ** The server: the registry and the open connections *)
(* ===================================================================== *)

Record server : Type := Server {
  srv_devices : registry;
  srv_sockets : list socket
}.

Definition find_socket (l : list socket) (sid : string) : option socket :=
  find (fun s => id s =? sid) l.

Definition remove_socket (l : list socket) (sid : string) : list socket :=
  filter (fun s => negb (id s =? sid)) l.

(** Whether connection [c] is sent emission [e].  Every socket is alone in
    the room named by its own id, and the handlers join no other room. *)
Definition receives (e : emission) (c : socket) : bool :=
  match dest e with
  | ToSocket sid => id c =? sid
  | ToOthers sid => negb (id c =? sid)
  | ToAll => true
  | ToRoom room => id c =? room
  end.

(** The events of [out] that reach connection [c], in order. *)
Definition inbox (out : list emission) (c : socket) : list emission :=
  filter (fun e => receives e c) out.

(** What the transport hands to the server. *)
Inductive input : Type :=
| Connect (s : socket) (now : Z)
| Disconnect (sid : string)
| Message (sid : string) (ev : inbound) (clock : nat -> Z).

Record reaction : Type := Reaction {
  next : server;
  emitted : list emission;
  thrown : option exn
}.

Definition react (l : list socket) (o : outcome unit) : reaction :=
  {| next := {| srv_devices := store o; srv_sockets := l |};
     emitted := sent o;
     thrown := match result o with inl e => Some e | inr _ => None end |}.

Section Server.

Context {runtime : JSRuntime}.

(** One input.  A connecting socket is in the namespace when the connection
    listener runs; a disconnecting one has left it when its ['disconnect']
    listener runs.  An input naming a socket that is not open does
    nothing. *)
Definition step (srv : server) (i : input) : reaction :=
  match i with
  | Connect s now =>
      react (srv_sockets srv ++ [s])%list (on_connection now s (srv_devices srv))
  | Disconnect sid =>
      match find_socket (srv_sockets srv) sid with
      | Some s =>
          react (remove_socket (srv_sockets srv) sid)
                (on_disconnect s (srv_devices srv))
      | None => {| next := srv; emitted := []; thrown := None |}
      end
  | Message sid ev clock =>
      match find_socket (srv_sockets srv) sid with
      | Some s => react (srv_sockets srv) (on_event clock s ev (srv_devices srv))
      | None => {| next := srv; emitted := []; thrown := None |}
      end
  end.

(** A sequence of inputs; an exception that no listener catches ends the
    process, so the inputs after it are not served. *)
Fixpoint run (srv : server) (ins : list input) : reaction :=
  match ins with
  | [] => {| next := srv; emitted := []; thrown := None |}
  | i :: rest =>
      let r := step srv i in
      match thrown r with
      | Some e => r
      | None =>
          let r' := run (next r) rest in
          {| next := next r';
             emitted := (emitted r ++ emitted r')%list;
             thrown := thrown r' |}
      end
  end.

End Server.

(** The server at start: [devices] is empty and nobody is connected. *)
Definition boot : server := {| srv_devices := []; srv_sockets := [] |}.

(** The handshake of a device, [?type=device&deviceId=..&name=..], and of a
    dashboard, which sends no [type]. *)
Definition device_query (deviceId name : option string) : handshake :=
  {| query_type := Some "device"; query_deviceId := deviceId;
     query_name := name |}.

Definition dashboard_query : handshake :=
  {| query_type := None; query_deviceId := None; query_name := None |}.

(** The entries of the registry stored under [k]. *)
Definition entries_at (m : registry) (k : key) : list (key * device) :=
  filter (fun kd => key_eqb (fst kd) k) m.

(* ===================================================================== *)
(** ** A reference runtime *)
(* ===================================================================== *)

(** A JSON reader and writer for the values above, to run the handlers on
    closed inputs.  It reads numbers without fraction or exponent, the
    numbers that [value] has. *)
Module Reference.

(** The double quote. *)
Definition dquote : ascii := ascii_of_nat 34.

Definition is_ws (c : ascii) : bool :=
  let n := nat_of_ascii c in
  (n =? 32)%nat || (n =? 9)%nat || (n =? 10)%nat || (n =? 13)%nat.

Fixpoint skip_ws (s : string) : string :=
  match s with
  | String c rest => if is_ws c then skip_ws rest else s
  | EmptyString => s
  end.

Definition digit_of (c : ascii) : option Z :=
  let n := nat_of_ascii c in
  if ((48 <=? n) && (n <=? 57))%nat then Some (Z.of_nat (n - 48)) else None.

Definition hex_of (c : ascii) : option nat :=
  let n := nat_of_ascii c in
  if ((48 <=? n) && (n <=? 57))%nat then Some (n - 48)%nat
  else if ((65 <=? n) && (n <=? 70))%nat then Some (n - 55)%nat
  else if ((97 <=? n) && (n <=? 102))%nat then Some (n - 87)%nat
  else None.

(** The UTF-8 bytes of a code unit given as [\uXXXX]. *)
Definition utf8 (n : nat) : string :=
  if (n <? 128)%nat then String (ascii_of_nat n) ""
  else if (n <? 2048)%nat then
    String (ascii_of_nat (192 + n / 64))
      (String (ascii_of_nat (128 + n mod 64)) "")
  else
    String (ascii_of_nat (224 + n / 4096))
      (String (ascii_of_nat (128 + (n / 64) mod 64))
         (String (ascii_of_nat (128 + n mod 64)) "")).

Fixpoint read_digits (s : string) (acc : Z) : Z * string :=
  match s with
  | String c rest =>
      match digit_of c with
      | Some d => read_digits rest (10 * acc + d)%Z
      | None => (acc, s)
      end
  | EmptyString => (acc, s)
  end.

(** What follows an integer must not continue the number. *)
Definition ends_number (s : string) : bool :=
  match s with
  | String c _ =>
      negb ((c =? ".")%char || (c =? "e")%char || (c =? "E")%char)
  | EmptyString => true
  end.

Definition read_unsigned (s : string) : option (Z * string) :=
  match s with
  | String c rest =>
      match digit_of c with
      | Some 0%Z => if ends_number rest
                    then match rest with
                         | String c' _ =>
                             match digit_of c' with
                             | Some _ => None
                             | None => Some (0%Z, rest)
                             end
                         | EmptyString => Some (0%Z, rest)
                         end
                    else None
      | Some d => let '(n, rest') := read_digits rest d in
                  if ends_number rest' then Some (n, rest') else None
      | None => None
      end
  | EmptyString => None
  end.

(** The characters of a string literal after its opening quote. *)
Fixpoint read_string (s : string) : option (string * string) :=
  match s with
  | EmptyString => None
  | String c rest =>
      if (c =? dquote)%char then Some ("", rest)
      else if (c =? "\")%char then
        match rest with
        | String e rest' =>
            let plain (x : ascii) :=
              match read_string rest' with
              | Some (t, r) => Some (String x t, r)
              | None => None
              end in
            if (e =? dquote)%char then plain e
            else if (e =? "\")%char then plain e
            else if (e =? "/")%char then plain e
            else if (e =? "b")%char then plain (ascii_of_nat 8)
            else if (e =? "f")%char then plain (ascii_of_nat 12)
            else if (e =? "n")%char then plain (ascii_of_nat 10)
            else if (e =? "r")%char then plain (ascii_of_nat 13)
            else if (e =? "t")%char then plain (ascii_of_nat 9)
            else if (e =? "u")%char then
              match rest' with
              | String h1 (String h2 (String h3 (String h4 rest''))) =>
                  match hex_of h1, hex_of h2, hex_of h3, hex_of h4 with
                  | Some a, Some b, Some c', Some d =>
                      match read_string rest'' with
                      | Some (t, r) =>
                          Some (utf8 (((a * 16 + b) * 16 + c') * 16 + d) ++ t,
                                r)
                      | None => None
                      end
                  | _, _, _, _ => None
                  end
              | _ => None
              end
            else None
        | EmptyString => None
        end
      else if (nat_of_ascii c <? 32)%nat then None
      else
        match read_string rest with
        | Some (t, r) => Some (String c t, r)
        | None => None
        end
  end.

(** A later member with the same name replaces the value of the earlier. *)
Fixpoint set_member (fields : list (string * value)) (k : string) (v : value)
  : list (string * value) :=
  match fields with
  | [] => [(k, v)]
  | (k', v') :: rest =>
      if k' =? k then (k', v) :: rest else (k', v') :: set_member rest k v
  end.

Definition strip (prefix s : string) : option string :=
  if String.prefix prefix s
  then Some (substring (String.length prefix)
                   (String.length s - String.length prefix) s)
  else None.

Fixpoint read_value (fuel : nat) (s : string) {struct fuel}
  : option (value * string) :=
  match fuel with
  | O => None
  | S fuel =>
      match skip_ws s with
      | String c rest as s' =>
          if (c =? "[")%char then
            match skip_ws rest with
            | String "]" rest' => Some (VArr [], rest')
            | _ =>
                match read_elements fuel rest with
                | Some (items, r) => Some (VArr items, r)
                | None => None
                end
            end
          else if (c =? "{")%char then
            match skip_ws rest with
            | String "}" rest' => Some (VObj [], rest')
            | _ =>
                match read_members fuel rest [] with
                | Some (fields, r) => Some (VObj fields, r)
                | None => None
                end
            end
          else if (c =? dquote)%char then
            match read_string rest with
            | Some (t, r) => Some (VStr t, r)
            | None => None
            end
          else if (c =? "-")%char then
            match read_unsigned rest with
            | Some (n, r) => Some (VNum (- n), r)
            | None => None
            end
          else
            match strip "null" s', strip "true" s', strip "false" s' with
            | Some r, _, _ => Some (VNull, r)
            | _, Some r, _ => Some (VBool true, r)
            | _, _, Some r => Some (VBool false, r)
            | _, _, _ =>
                match read_unsigned s' with
                | Some (n, r) => Some (VNum n, r)
                | None => None
                end
            end
      | EmptyString => None
      end
  end

with read_elements (fuel : nat) (s : string) {struct fuel}
  : option (list value * string) :=
  match fuel with
  | O => None
  | S fuel =>
      match read_value fuel s with
      | Some (v, r) =>
          match skip_ws r with
          | String "," r' =>
              match read_elements fuel r' with
              | Some (vs, r'') => Some (v :: vs, r'')
              | None => None
              end
          | String "]" r' => Some ([v], r')
          | _ => None
          end
      | None => None
      end
  end

with read_members (fuel : nat) (s : string) (acc : list (string * value))
  {struct fuel} : option (list (string * value) * string) :=
  match fuel with
  | O => None
  | S fuel =>
      match skip_ws s with
      | String q r =>
          if (q =? dquote)%char then
            match read_string r with
            | Some (k, r1) =>
                match skip_ws r1 with
                | String ":" r2 =>
                    match read_value fuel r2 with
                    | Some (v, r3) =>
                        let acc' := set_member acc k v in
                        match skip_ws r3 with
                        | String "," r4 => read_members fuel r4 acc'
                        | String "}" r4 => Some (acc', r4)
                        | _ => None
                        end
                    | None => None
                    end
                | _ => None
                end
            | None => None
            end
          else None
      | EmptyString => None
      end
  end.

Definition parse (s : string) : option value :=
  match read_value (2 * String.length s + 2) s with
  | Some (v, rest) =>
      match skip_ws rest with
      | EmptyString => Some v
      | _ => None
      end
  | None => None
  end.

Definition hex_digit (n : nat) : ascii :=
  if (n <? 10)%nat then ascii_of_nat (48 + n) else ascii_of_nat (87 + n).

Fixpoint escape (s : string) : string :=
  match s with
  | EmptyString => ""
  | String c rest =>
      let n := nat_of_ascii c in
      (if (c =? dquote)%char then String "\" (String dquote "")
       else if (c =? "\")%char then "\\"
       else if (n =? 8)%nat then "\b"
       else if (n =? 12)%nat then "\f"
       else if (n =? 10)%nat then "\n"
       else if (n =? 13)%nat then "\r"
       else if (n =? 9)%nat then "\t"
       else if (n <? 32)%nat then
         "\u00" ++ String (hex_digit (n / 16)) (String (hex_digit (n mod 16)) "")
       else String c "") ++ escape rest
  end.

Definition quote (s : string) : string :=
  String dquote (escape s ++ String dquote "").

Fixpoint write (v : value) : string :=
  match v with
  | VUndefined | VNull => "null"
  | VBool true => "true"
  | VBool false => "false"
  | VNum n => string_of_Z n
  | VStr s => quote s
  | VArr items =>
      "[" ++ (fix elements (l : list value) : string :=
                match l with
                | [] => ""
                | x :: rest =>
                    match rest with
                    | [] => write x
                    | _ :: _ => write x ++ "," ++ elements rest
                    end
                end) items ++ "]"
  | VObj fields =>
      "{" ++ (fix members (l : list (string * value)) (first : bool) : string :=
                match l with
                | [] => ""
                | (k, x) :: rest =>
                    match x with
                    | VUndefined => members rest first
                    | _ => (if first then "" else ",") ++
                           quote k ++ ":" ++ write x ++ members rest false
                    end
                end) fields true ++ "}"
  end.

Definition stringify (v : value) : value :=
  match v with
  | VUndefined => VUndefined
  | _ => VStr (write v)
  end.

#[export] Instance runtime : JSRuntime :=
  {| JSON_parse := parse; JSON_stringify := stringify |}.

End Reference.

(* ===================================================================== *)
(** ** The routing table, for the statements *)
(* ===================================================================== *)

Section Routing.

Context {runtime : JSRuntime}.

(** The target id that the listener of [ev] hands to [sendToDevice] when it
    is truthy: the argument itself for the command events, the [targetId]
    property of the (parsed) payload for the others; [None] for an event
    that is never targeted, or whose listener throws before it reads the
    target. *)
Definition target_id (ev : inbound) : option value :=
  match ev with
  | get_status t | start_monitoring t | stop_monitoring t
  | request_camera_start t | start_video t | stop_video t | switch_camera t
  | toggle_flash t | toggle_front_flash t | toggle_back_flash t
  | hide_app t | show_app t | brightness_up t | brightness_down t
  | START_MANUAL_RECORDING t | STOP_MANUAL_RECORDING t
  | get_config t | get_storage_stats t | hide_app_icon t | show_app_icon t
  | get_permissions t => Some t
  | update_video_quality data | update_config data =>
      match get_prop data "targetId" with
      | inr t => Some t
      | inl _ => None
      end
  | webrtc_offer data =>
      match data with
      | VStr s =>
          match JSON_parse s with
          | Some payload =>
              match get_prop payload "targetId" with
              | inr t => Some t
              | inl _ => None
              end
          | None => None
          end
      | _ =>
          match get_prop data "targetId" with
          | inr t => Some t
          | inl _ => None
          end
      end
  | webrtc_ice_candidate data =>
      match get_prop (try_parse_if_string data) "targetId" with
      | inr t => Some t
      | inl _ => None
      end
  | _ => None
  end.

End Routing.

(** The command events of the routing table, each with the name it is
    relayed under. *)
Definition command_name (ev : inbound) : option string :=
  match ev with
  | get_status _ => Some "GET_STATUS"
  | start_monitoring _ => Some "START_AUDIO"
  | stop_monitoring _ => Some "STOP_AUDIO"
  | start_video _ => Some "START_CAM"
  | stop_video _ => Some "STOP_CAM"
  | switch_camera _ => Some "SWITCH_CAM"
  | toggle_flash _ => Some "TOGGLE_FLASH"
  | brightness_up _ => Some "BRIGHTNESS_UP"
  | brightness_down _ => Some "BRIGHTNESS_DOWN"
  | update_config _ => Some "UPDATE_CONFIG"
  | get_config _ => Some "GET_CONFIG"
  | get_storage_stats _ => Some "GET_STORAGE_STATS"
  | hide_app _ => Some "HIDE_APP"
  | show_app _ => Some "SHOW_APP"
  | START_MANUAL_RECORDING _ => Some "START_MANUAL_RECORDING"
  | STOP_MANUAL_RECORDING _ => Some "STOP_MANUAL_RECORDING"
  | _ => None
  end.

(** What a command carries to its target: the [config] of [update_config],
    nothing ([null]) for the others. *)
Definition command_data (ev : inbound) : value :=
  match ev with
  | update_config data =>
      match get_prop data "config" with
      | inr config => default_null config
      | inl _ => VNull
      end
  | _ => VNull
  end.

(** The commands that older clients send without a target. *)
Definition falls_back (ev : inbound) : bool :=
  match ev with
  | get_status _ | start_monitoring _ | stop_monitoring _
  | start_video _ | stop_video _ | switch_camera _ | toggle_flash _
  | brightness_up _ | brightness_down _ | update_config _ => true
  | _ => false
  end.

(** What the fallback broadcast carries: the whole argument of
    [update_config], no argument for the others. *)
Definition fallback_args (ev : inbound) : payload :=
  match ev with
  | update_config data => Data data
  | _ => NoArgs
  end.

(** The commands introduced together with the target id. *)
Definition targeted_only (ev : inbound) : bool :=
  match ev with
  | hide_app _ | show_app _
  | START_MANUAL_RECORDING _ | STOP_MANUAL_RECORDING _ => true
  | _ => false
  end.

Definition is_heartbeat (ev : inbound) : bool :=
  match ev with
  | heartbeat _ => true
  | _ => false
  end.

(** The wrapper [{ deviceId, data }] of a relayed stream. *)
Definition wrap (k : key) (data : value) : value :=
  VObj [("deviceId", key_value k); ("data", data)].

(** The reply to a heartbeat. *)
Definition pong (serverTime clientTime latency : Z) : value :=
  VObj [("serverTime", VNum serverTime);
        ("clientTime", VNum clientTime);
        ("latency", VNum latency)].

Definition roster_update (a : address) (m : registry) : emission :=
  {| dest := a; event := "device_list_update"; args := DeviceList m |}.

(** Closed inputs for the examples. *)
Module Examples.

Definition phone1 : socket := Socket "C1" (device_query (Some "D") (Some "Pixel")).
Definition phone2 : socket := Socket "C2" (device_query (Some "D") (Some "Pixel")).
Definition anonymous1 : socket := Socket "A1" (device_query None None).
Definition anonymous2 : socket := Socket "A2" (device_query None (Some "Tab")).
Definition dashboard : socket := Socket "W1" dashboard_query.
Definition noon (_ : nat) : Z := 1700000000000%Z.

(** An ICE candidate addressed to a device that is not there, as the JSON
    text a dashboard sends. *)
Definition ice_for_ghost : string :=
  Reference.write
    (VObj [("targetId", VStr "ghost"); ("candidate", VStr "candidate:1")]).

(** A device and a dashboard are connected. *)
Definition two_peers : server :=
  next (run (runtime := Reference.runtime) boot
          [Connect phone1 5; Connect dashboard 6]).

End Examples.

(* ===================================================================== *)
(** ** Buffers and [createWavHeader] *)
(* ===================================================================== *)

(** A [Buffer] is its bytes, each from 0 to 255. *)
Definition buffer : Type := list Z.

(** The error of a write that does not fit: a [RangeError]. *)
Inductive buffer_error : Type :=
| RangeError.

(** [Buffer.alloc(size)]: zero-filled. *)
Definition Buffer_alloc (size : nat) : buffer := repeat 0%Z size.

(** The bytes of [b] from [offset] on are overwritten with [bytes], as far
    as the buffer reaches. *)
Fixpoint poke (b : buffer) (offset : nat) (bytes : list Z) : buffer :=
  match b with
  | [] => []
  | x :: rest =>
      match offset with
      | S n => x :: poke rest n bytes
      | O =>
          match bytes with
          | [] => b
          | y :: ys => y :: poke rest 0 ys
          end
      end
  end.

Definition char_codes (s : string) : list Z :=
  map (fun c => Z.of_nat (nat_of_ascii c)) (list_ascii_of_string s).

(** [buffer.write(string, offset)] for an ASCII string: a RangeError when
    the offset lies beyond the buffer. *)
Definition Buffer_write (s : string) (offset : nat) (b : buffer)
  : buffer_error + buffer :=
  if (List.length b <? offset)%nat then inl RangeError
  else inr (poke b offset (char_codes s)).

(** [buffer.writeUInt32LE(value, offset)] for an integer [value]: the value
    is checked against the range of 32 bits, the offset against the buffer,
    then the four bytes are stored, lowest first. *)
Definition writeUInt32LE (value : Z) (offset : nat) (b : buffer)
  : buffer_error + buffer :=
  if ((value <? 0) || (4294967295 <? value))%Z then inl RangeError
  else if (List.length b <? offset + 4)%nat then inl RangeError
  else inr (poke b offset
              [Z.land value 255;
               Z.land (Z.shiftr value 8) 255;
               Z.land (Z.shiftr value 16) 255;
               Z.land (Z.shiftr value 24) 255]).

(** [buffer.writeUInt16LE(value, offset)] *)
Definition writeUInt16LE (value : Z) (offset : nat) (b : buffer)
  : buffer_error + buffer :=
  if ((value <? 0) || (65535 <? value))%Z then inl RangeError
  else if (List.length b <? offset + 2)%nat then inl RangeError
  else inr (poke b offset
              [Z.land value 255; Z.land (Z.shiftr value 8) 255]).

(** [createWavHeader(dataLength)], for an integer [dataLength] (the
    [length] of a Buffer). *)
Definition createWavHeader (dataLength : Z) : buffer_error + buffer :=
  let buffer := Buffer_alloc 44 in
  (* RIFF chunk descriptor *)
  buffer <- Buffer_write "RIFF" 0 buffer ;;
  buffer <- writeUInt32LE (36 + dataLength) 4 buffer ;;
  buffer <- Buffer_write "WAVE" 8 buffer ;;
  (* fmt sub-chunk *)
  buffer <- Buffer_write "fmt " 12 buffer ;;
  buffer <- writeUInt32LE 16 16 buffer ;;
  buffer <- writeUInt16LE 1 20 buffer ;;
  buffer <- writeUInt16LE 1 22 buffer ;;
  buffer <- writeUInt32LE 44100 24 buffer ;;
  buffer <- writeUInt32LE (44100 * 2) 28 buffer ;;
  buffer <- writeUInt16LE 2 32 buffer ;;
  buffer <- writeUInt16LE 16 34 buffer ;;
  (* data sub-chunk *)
  buffer <- Buffer_write "data" 36 buffer ;;
  buffer <- writeUInt32LE dataLength 40 buffer ;;
  ret buffer.

(** Reading back: [len] bytes from [offset], and the unsigned number that
    bytes spell, lowest byte first ([readUIntLE]). *)
Definition slice (b : buffer) (offset len : nat) : list Z :=
  firstn len (skipn offset b).

Fixpoint little_endian (bytes : list Z) : Z :=
  match bytes with
  | [] => 0
  | x :: rest => (x + 256 * little_endian rest)%Z
  end.

Definition readUIntLE (b : buffer) (offset len : nat) : Z :=
  little_endian (slice b offset len).

Definition is_byte (x : Z) : bool := ((0 <=? x) && (x <=? 255))%Z.

(** The largest [dataLength] whose header can be written: 2^32 - 1 - 36. *)
Definition max_data_length : Z := 4294967259.

(** The 44 bytes of a header, written out: the two sizes, each as four
    bytes, among the constant fields. *)
Definition header_bytes (n : Z) : buffer :=
  ([82; 73; 70; 70] ++
   [Z.land (36 + n) 255; Z.land (Z.shiftr (36 + n) 8) 255;
    Z.land (Z.shiftr (36 + n) 16) 255; Z.land (Z.shiftr (36 + n) 24) 255] ++
   [87; 65; 86; 69; 102; 109; 116; 32; 16; 0; 0; 0; 1; 0; 1; 0;
    68; 172; 0; 0; 136; 88; 1; 0; 2; 0; 16; 0; 100; 97; 116; 97] ++
   [Z.land n 255; Z.land (Z.shiftr n 8) 255;
    Z.land (Z.shiftr n 16) 255; Z.land (Z.shiftr n 24) 255])%list%Z.

(* ===================================================================== *)
(** ** [upload_audio_file] (server.js) *)
(* ===================================================================== *)

(** In a file name every character of a [string] is one code unit of the
    JavaScript string (the code units below 256). *)

(** The characters that [/[^a-z0-9._-]/gi] leaves alone. *)
Definition is_safe_char (c : ascii) : bool :=
  let n := nat_of_ascii c in
  ((97 <=? n) && (n <=? 122) || (65 <=? n) && (n <=? 90)
   || (48 <=? n) && (n <=? 57)
   || (n =? 46) || (n =? 95) || (n =? 45))%nat.

(** [s.replace(/[^a-z0-9._-]/gi, '_')] *)
Fixpoint sanitize (s : string) : string :=
  match s with
  | EmptyString => EmptyString
  | String c rest =>
      String (if is_safe_char c then c else "_"%char) (sanitize rest)
  end.

Fixpoint drop (n : nat) (s : string) : string :=
  match n, s with
  | S n', String _ rest => drop n' rest
  | _, _ => s
  end.

(** [s.replace(pattern, '')] with a string pattern: the first occurrence
    goes. *)
Fixpoint remove_first (pattern s : string) : string :=
  if String.prefix pattern s then drop (String.length pattern) s
  else
    match s with
    | EmptyString => EmptyString
    | String c rest => String c (remove_first pattern rest)
    end.

(** The second argument of the event: a Buffer, or a value that is none. *)
Inductive upload_data : Type :=
| Binary (bytes : buffer)
| NotBinary (v : value).

(** What the listener does: its log line throws (outside the [try]); it
    returns for want of data; an exception is caught and logged; or
    [fs.writeFile] is called with the bytes, under [uploadsDir]. *)
Inductive upload_outcome : Type :=
| LogThrows
| NoData
| Caught
| WriteFile (wavName : string) (wavBuffer : buffer).

(** The listener of [upload_audio_file]; [now] is [new Date().getTime()].
    A file name that is truthy and no string has no [replace] to call; a
    truthy value that is no Buffer is refused by [Buffer.concat], if
    [createWavHeader] has not thrown before on its [length]. *)
Definition upload_audio_file (now : Z) (filename : value)
    (data : upload_data) : upload_outcome :=
  match to_string filename with
  | inl _ => LogThrows
  | inr _ =>
      let timestamp := now in
      match js_or filename (VStr ("audio_" ++ string_of_Z timestamp)) with
      | VStr name =>
          let safeName := sanitize name in
          match data with
          | NotBinary v => if truthy v then Caught else NoData
          | Binary pcmData =>
              match createWavHeader (Z.of_nat (List.length pcmData)) with
              | inl _ => Caught
              | inr wavHeader =>
                  let wavBuffer := (wavHeader ++ pcmData)%list in
                  let wavName := remove_first ".pcm" safeName ++ ".wav" in
                  WriteFile wavName wavBuffer
              end
          end
      | _ => Caught
      end
  end.

(** The callback of [fs.writeFile]: on success every connection is told;
    [date] is [new Date().toISOString()]. *)
Definition on_file_written (err : bool) (wavName : string)
    (wavBuffer : buffer) (date : string) : list emission :=
  if err then []
  else [Emission ToAll "new_recording"
          (Data (VObj [("name", VStr wavName);
                       ("size", VNum (Z.of_nat (List.length wavBuffer)));
                       ("date", VStr date)]))].

Definition all_safe (s : string) : bool :=
  forallb is_safe_char (list_ascii_of_string s).

(* ===================================================================== *)
(** ** The CORS origins *)
(* ===================================================================== *)

(** The white space that [trim] strips, among the code units below 256. *)
Definition is_whitespace (c : ascii) : bool :=
  let n := nat_of_ascii c in
  ((9 <=? n) && (n <=? 13) || (n =? 32) || (n =? 160))%nat.

Fixpoint trimStart (s : string) : string :=
  match s with
  | String c rest => if is_whitespace c then trimStart rest else s
  | EmptyString => s
  end.

Fixpoint trimEnd (s : string) : string :=
  match s with
  | EmptyString => EmptyString
  | String c rest =>
      match trimEnd rest with
      | EmptyString => if is_whitespace c then EmptyString
                       else String c EmptyString
      | t => String c t
      end
  end.

(** [s.trim()] *)
Definition trim (s : string) : string := trimEnd (trimStart s).

(** [s.split(',')] *)
Fixpoint split_comma (s : string) : list string :=
  match s with
  | EmptyString => [EmptyString]
  | String c rest =>
      if (c =? ",")%char then EmptyString :: split_comma rest
      else
        match split_comma rest with
        | piece :: pieces => String c piece :: pieces
        | [] => [String c EmptyString]
        end
  end.

(** [const allowedOrigins = process.env.ALLOWED_ORIGINS ? ... : ['*']];
    the variable is a string or unset. *)
Definition allowedOrigins (ALLOWED_ORIGINS : option string) : list string :=
  match ALLOWED_ORIGINS with
  | Some s => if s =? "" then ["*"] else map trim (split_comma s)
  | None => ["*"]
  end.

(** The [origin] option handed to Socket.IO and to [cors]:
    [allowedOrigins.includes('*') ? '*' : allowedOrigins]. *)
Inductive origin_option : Type :=
| AnyOrigin
| Origins (allowed : list string).

Definition cors_origin (allowed : list string) : origin_option :=
  if existsb (String.eqb "*") allowed then AnyOrigin else Origins allowed.

Definition has_comma (s : string) : bool :=
  existsb (fun c => (c =? ",")%char) (list_ascii_of_string s).

Definition first_char (s : string) : option ascii :=
  match s with
  | String c _ => Some c
  | EmptyString => None
  end.

Fixpoint last_char (s : string) : option ascii :=
  match s with
  | EmptyString => None
  | String c EmptyString => Some c
  | String _ rest => last_char rest
  end.

(* ===================================================================== *)
(** ** Vocabulary for the properties of the router *)
(* ===================================================================== *)

(** What registration fixes of an entry: its key, socket, name and time of
    connection. *)
Definition identity (kd : key * device) : key * string * string * Z :=
  (fst kd, socketId (snd kd), name (snd kd), connectedAt (snd kd)).

(** The events whose listener has a target and no fallback. *)
Definition targeted_without_fallback (ev : inbound) : bool :=
  match ev with
  | request_camera_start _ | update_video_quality _
  | toggle_front_flash _ | toggle_back_flash _ | hide_app _ | show_app _
  | START_MANUAL_RECORDING _ | STOP_MANUAL_RECORDING _
  | get_config _ | get_storage_stats _
  | hide_app_icon _ | show_app_icon _ | get_permissions _ => true
  | _ => false
  end.

(** The events that are relayed under the sender's deviceId, with the name
    of the property that carries the payload. *)
Definition attributed (ev : inbound) : option (string * value) :=
  match ev with
  | audio_stream data | video_frame data => Some ("data", data)
  | permission_report data => Some ("report", data)
  | _ => None
  end.

(** Every entry refers to an open connection that is a device and
    registered under the key of the entry. *)
Definition live_entries (srv : server) : Prop :=
  forall k d, In (k, d) (srv_devices srv) ->
    exists s, In s (srv_sockets srv) /\ id s = socketId d /\
              is_device s = true /\ query_deviceId (query s) = k.

(** The inputs the transport can deliver, given the ids of the open
    connections: a connecting socket has an id that no open one has. *)
Fixpoint fresh_connects (open : list string) (ins : list input) : bool :=
  match ins with
  | [] => true
  | Connect s _ :: rest =>
      negb (existsb (String.eqb (id s)) open)
      && fresh_connects (open ++ [id s])%list rest
  | Disconnect sid :: rest =>
      fresh_connects (filter (fun x => negb (x =? sid)) open) rest
  | Message _ _ _ :: rest => fresh_connects open rest
  end.

(* ===================================================================== *)
(** ** Tactics *)
(* ===================================================================== *)

(** Case analysis on the tests a handler makes, until it is evaluated. *)
Ltac split_tests :=
  repeat match goal with
         | |- context [match ?x with _ => _ end] =>
             destruct x eqn:?; simpl
         | |- context [if ?x then _ else _] =>
             destruct x eqn:?; simpl
         end.

(** Unfolds a handler and the operations of the monad. *)
Ltac eval_handler :=
  cbv [on_event on_connection on_disconnect sendToDevice parse_if_string
       default_null lift throw emit read_devices write_devices
       devices_set devices_delete devices_entries
       socket_emit socket_broadcast_emit io_emit io_to_emit
       bind ret Monad_M M_bind M_ret];
  simpl.

(* ===================================================================== *)
(** ** Facts about the [Map] operations *)
(* ===================================================================== *)

Lemma key_eqb_eq (a b : key) : key_eqb a b = true <-> a = b.
Proof.
  destruct a as [x|], b as [y|]; simpl; split; intros H;
    try discriminate; try reflexivity.
  - apply String.eqb_eq in H. now subst.
  - injection H as ->. apply String.eqb_refl.
Qed.

Lemma key_eqb_refl (k : key) : key_eqb k k = true.
Proof. now apply key_eqb_eq. Qed.

Lemma key_eqb_neq (a b : key) : key_eqb a b = false <-> a <> b.
Proof.
  split.
  - intros H E. apply key_eqb_eq in E. congruence.
  - intros H. destruct (key_eqb a b) eqn:E; [|reflexivity].
    apply key_eqb_eq in E. contradiction.
Qed.

Lemma Map_set_keys (m : registry) (k : key) (d : device) (k' : key) :
  In k' (map fst (Map_set m k d)) -> k' = k \/ In k' (map fst m).
Proof.
  induction m as [|[k0 d0] m IH]; simpl.
  - intros [H|[]]. now left.
  - destruct (key_eqb k0 k) eqn:E; simpl.
    + intros [H|H]; right; auto.
    + intros [H|H]; [right; now left|].
      destruct (IH H) as [?|?]; [now left | right; now right].
Qed.

Lemma Map_delete_keys (m : registry) (k k' : key) :
  In k' (map fst (Map_delete m k)) -> In k' (map fst m).
Proof.
  induction m as [|[k0 d0] m IH]; simpl; [tauto|].
  destruct (key_eqb k0 k); simpl; intuition.
Qed.

Lemma Map_set_NoDup (m : registry) (k : key) (d : device) :
  NoDup (map fst m) -> NoDup (map fst (Map_set m k d)).
Proof.
  induction m as [|[k0 d0] m IH]; simpl; intros H.
  - constructor; [intros []|constructor].
  - inversion H as [|? ? Hnotin Hnd]; subst.
    destruct (key_eqb k0 k) eqn:E; simpl.
    + now constructor.
    + constructor; [|now apply IH].
      intros Hin. apply Map_set_keys in Hin as [->|Hin]; [|contradiction].
      rewrite key_eqb_refl in E. discriminate.
Qed.

Lemma Map_delete_NoDup (m : registry) (k : key) :
  NoDup (map fst m) -> NoDup (map fst (Map_delete m k)).
Proof.
  induction m as [|[k0 d0] m IH]; simpl; intros H; [constructor|].
  inversion H as [|? ? Hnotin Hnd]; subst.
  destruct (key_eqb k0 k); simpl; [assumption|].
  constructor; [|now apply IH].
  intros Hin. now apply Map_delete_keys in Hin.
Qed.

Lemma Map_get_set_same (m : registry) (k : key) (d : device) :
  Map_get (Map_set m k d) k = Some d.
Proof.
  induction m as [|[k0 d0] m IH]; simpl.
  - now rewrite key_eqb_refl.
  - destruct (key_eqb k0 k) eqn:E; simpl; now rewrite E.
Qed.

Lemma Map_get_set_other (m : registry) (k k' : key) (d : device) :
  k' <> k -> Map_get (Map_set m k d) k' = Map_get m k'.
Proof.
  intros Hne. induction m as [|[k0 d0] m IH]; simpl.
  - apply key_eqb_neq in Hne. destruct (key_eqb k k') eqn:E; [|reflexivity].
    apply key_eqb_eq in E. subst. now rewrite key_eqb_refl in Hne.
  - destruct (key_eqb k0 k) eqn:E; simpl.
    + apply key_eqb_eq in E. subst k0.
      destruct (key_eqb k k') eqn:E'; [|reflexivity].
      apply key_eqb_eq in E'. congruence.
    + now rewrite IH.
Qed.

Lemma Map_get_None_notin (m : registry) (k : key) :
  ~ In k (map fst m) -> Map_get m k = None.
Proof.
  induction m as [|[k0 d0] m IH]; simpl; intros H; [reflexivity|].
  destruct (key_eqb k0 k) eqn:E.
  - apply key_eqb_eq in E. subst. tauto.
  - apply IH. tauto.
Qed.

Lemma Map_get_Some_in (m : registry) (k : key) (d : device) :
  Map_get m k = Some d -> In (k, d) m.
Proof.
  induction m as [|[k0 d0] m IH]; simpl; [discriminate|].
  destruct (key_eqb k0 k) eqn:E.
  - apply key_eqb_eq in E. intros [= ->]. subst. now left.
  - intros H. right. now apply IH.
Qed.

(** In a map without duplicate keys, [delete] leaves nothing under the
    key. *)
Lemma Map_get_delete_same (m : registry) (k : key) :
  NoDup (map fst m) -> Map_get (Map_delete m k) k = None.
Proof.
  induction m as [|[k0 d0] m IH]; simpl; intros H; [reflexivity|].
  inversion H as [|? ? Hnotin Hnd]; subst.
  destruct (key_eqb k0 k) eqn:E; simpl.
  - apply key_eqb_eq in E. subst. now apply Map_get_None_notin.
  - rewrite E. now apply IH.
Qed.

Lemma Map_get_delete_other (m : registry) (k k' : key) :
  k' <> k -> Map_get (Map_delete m k) k' = Map_get m k'.
Proof.
  intros Hne. induction m as [|[k0 d0] m IH]; simpl; [reflexivity|].
  destruct (key_eqb k0 k) eqn:E; simpl.
  - apply key_eqb_eq in E. subst k0.
    destruct (key_eqb k k') eqn:E'; [|reflexivity].
    apply key_eqb_eq in E'. congruence.
  - now rewrite IH.
Qed.

Lemma entries_at_notin (m : registry) (k : key) :
  ~ In k (map fst m) -> entries_at m k = [].
Proof.
  induction m as [|[k0 d0] m IH]; simpl; intros H; [reflexivity|].
  destruct (key_eqb k0 k) eqn:E.
  - apply key_eqb_eq in E. subst. tauto.
  - apply IH. tauto.
Qed.

(** After [set], a map without duplicate keys holds exactly the new entry
    under the key. *)
Lemma entries_at_set (m : registry) (k : key) (d : device) :
  NoDup (map fst m) -> entries_at (Map_set m k d) k = [(k, d)].
Proof.
  induction m as [|[k0 d0] m IH]; simpl; intros H.
  - now rewrite key_eqb_refl.
  - inversion H as [|? ? Hnotin Hnd]; subst.
    destruct (key_eqb k0 k) eqn:E; simpl; rewrite E.
    + apply key_eqb_eq in E. subst k0.
      fold (entries_at m k). now rewrite entries_at_notin.
    + now apply IH.
Qed.

(** [set] on a key that is present keeps the keys and their order. *)
Lemma Map_set_present_keys (m : registry) (k : key) (d : device) :
  Map_has m k = true -> map fst (Map_set m k d) = map fst m.
Proof.
  unfold Map_has. induction m as [|[k0 d0] m IH]; simpl; [discriminate|].
  destruct (key_eqb k0 k) eqn:E; simpl; [reflexivity|].
  intros H. now rewrite IH.
Qed.

Lemma getDeviceIdBySocketId_Some (m : registry) (sid : string) (k : key) :
  getDeviceIdBySocketId m sid = Some k ->
  exists d, In (k, d) m /\ socketId d = sid.
Proof.
  induction m as [|[k0 d0] m IH]; simpl; [discriminate|].
  destruct (socketId d0 =? sid) eqn:E.
  - intros [= ->]. exists d0. split; [now left|]. now apply String.eqb_eq.
  - intros H. destruct (IH H) as [d [Hin Hs]]. exists d. split; auto.
Qed.

Lemma getDeviceIdBySocketId_None (m : registry) (sid : string) :
  getDeviceIdBySocketId m sid = None <->
  forall k d, In (k, d) m -> socketId d <> sid.
Proof.
  induction m as [|[k0 d0] m IH]; simpl.
  - split; [intros _ k d []|reflexivity].
  - destruct (socketId d0 =? sid) eqn:E.
    + split; [discriminate|]. intros H. exfalso.
      apply (H k0 d0); [now left|]. now apply String.eqb_eq.
    + rewrite IH. split.
      * intros H k d [[= <- <-]|Hin]; [now apply String.eqb_neq|eauto].
      * intros H k d Hin. apply (H k d). now right.
Qed.

(** The reverse lookup finds the id a connection has just registered
    under, when no older entry carries its socket id. *)
Lemma getDeviceIdBySocketId_set (m : registry) (k : key) (d : device) :
  getDeviceIdBySocketId m (socketId d) = None ->
  getDeviceIdBySocketId (Map_set m k d) (socketId d) = Some k.
Proof.
  induction m as [|[k0 d0] m IH]; simpl.
  - intros _. now rewrite String.eqb_refl.
  - destruct (socketId d0 =? socketId d) eqn:E; [discriminate|].
    intros H. destruct (key_eqb k0 k) eqn:Ek; simpl.
    + rewrite String.eqb_refl. apply key_eqb_eq in Ek. now subst.
    + rewrite E. now apply IH.
Qed.

(* ===================================================================== *)
(** ** Facts about the handlers *)
(* ===================================================================== *)

Lemma sendToDevice_unknown (devices : registry) (targetId : value)
    (event : string) (data : value) :
  Map_get_value devices targetId = None ->
  sendToDevice targetId event data devices = Outcome devices [] (inr tt).
Proof.
  intros H. eval_handler. now rewrite H.
Qed.

Lemma sendToDevice_known (devices : registry) (targetId : value)
    (event : string) (data : value) (d : device) :
  Map_get_value devices targetId = Some d ->
  socketId d <> "" ->
  sendToDevice targetId event data devices =
  Outcome devices
    [Emission (ToRoom (socketId d)) event (Data (default_null data))]
    (inr tt).
Proof.
  intros H Hs. unfold default_null. eval_handler. rewrite H.
  apply String.eqb_neq in Hs. rewrite Hs. reflexivity.
Qed.

Lemma sendToDevice_store (devices : registry) (targetId : value)
    (event : string) (data : value) :
  store (sendToDevice targetId event data devices) = devices.
Proof.
  eval_handler. split_tests; reflexivity.
Qed.

Section HandlerFacts.

Context {runtime : JSRuntime}.

Lemma on_event_store (clock : nat -> Z) (socket : socket) (ev : inbound)
    (devices : registry) :
  is_heartbeat ev = false ->
  store (on_event clock socket ev devices) = devices.
Proof.
  intros Hev. destruct ev; try discriminate Hev;
    eval_handler; split_tests; reflexivity.
Qed.

(** What a heartbeat leaves in the registry. *)
Lemma heartbeat_store (clock : nat -> Z) (socket : socket) (timestamp : Z)
    (devices : registry) :
  store (on_event clock socket (heartbeat timestamp) devices) =
  match getDeviceIdBySocketId devices (id socket) with
  | Some k =>
      if truthy (key_value k) then
        match Map_get devices k with
        | Some d => Map_set devices k (set_lastSeen d (clock 2%nat))
        | None => devices
        end
      else devices
  | None => devices
  end.
Proof.
  eval_handler. unfold Map_has.
  split_tests; simpl in *; try discriminate; reflexivity.
Qed.

(** The pong of a heartbeat, and that nothing else is sent. *)
Lemma heartbeat_sent (clock : nat -> Z) (socket : socket) (timestamp : Z)
    (devices : registry) :
  sent (on_event clock socket (heartbeat timestamp) devices) =
  [Emission (ToSocket (id socket)) "pong_response"
     (Data (VObj [("serverTime", VNum (clock 0%nat));
                  ("clientTime", VNum timestamp);
                  ("latency", VNum (clock 1%nat - timestamp))]))] /\
  result (on_event clock socket (heartbeat timestamp) devices) = inr tt.
Proof.
  eval_handler. unfold Map_has. split_tests; split; reflexivity.
Qed.

Lemma on_event_NoDup (clock : nat -> Z) (socket : socket) (ev : inbound)
    (devices : registry) :
  NoDup (map fst devices) ->
  NoDup (map fst (store (on_event clock socket ev devices))).
Proof.
  intros H. destruct ev;
    try (rewrite on_event_store by reflexivity; exact H).
  rewrite heartbeat_store. split_tests; auto using Map_set_NoDup.
Qed.

Lemma on_connection_store (now : Z) (socket : socket) (devices : registry) :
  store (on_connection now socket devices) =
  if is_device socket
  then Map_set devices (query_deviceId (query socket))
         {| socketId := id socket; name := display_name socket;
            connectedAt := now; lastSeen := None |}
  else devices.
Proof.
  eval_handler. destruct (is_device socket); reflexivity.
Qed.

Lemma on_connection_result (now : Z) (socket : socket) (devices : registry) :
  result (on_connection now socket devices) = inr tt.
Proof.
  eval_handler. destruct (is_device socket); reflexivity.
Qed.

Lemma on_disconnect_store (socket : socket) (devices : registry) :
  store (on_disconnect socket devices) =
  if is_device socket
  then Map_delete devices (query_deviceId (query socket))
  else devices.
Proof.
  eval_handler. destruct (is_device socket); reflexivity.
Qed.

Lemma on_disconnect_result (socket : socket) (devices : registry) :
  result (on_disconnect socket devices) = inr tt.
Proof.
  eval_handler. destruct (is_device socket); reflexivity.
Qed.

Lemma step_NoDup (srv : server) (i : input) :
  NoDup (map fst (srv_devices srv)) ->
  NoDup (map fst (srv_devices (next (step srv i)))).
Proof.
  intros H. destruct i as [s now|sid|sid ev clock]; simpl.
  - rewrite on_connection_store.
    destruct (is_device s); auto using Map_set_NoDup.
  - destruct (find_socket (srv_sockets srv) sid); simpl; [|exact H].
    rewrite on_disconnect_store.
    destruct (is_device s); auto using Map_delete_NoDup.
  - destruct (find_socket (srv_sockets srv) sid); simpl; [|exact H].
    now apply on_event_NoDup.
Qed.

Lemma run_NoDup (ins : list input) (srv : server) :
  NoDup (map fst (srv_devices srv)) ->
  NoDup (map fst (srv_devices (next (run srv ins)))).
Proof.
  revert srv. induction ins as [|i ins IH]; intros srv H; simpl; [exact H|].
  pose proof (step_NoDup srv i H) as Hs.
  destruct (thrown (step srv i)); simpl; [exact Hs|].
  now apply IH.
Qed.

Lemma boot_NoDup : NoDup (map fst (srv_devices boot)).
Proof. constructor. Qed.

End HandlerFacts.

Lemma entries_at_NoDup (m : registry) (k : key) :
  NoDup (map fst m) -> (List.length (entries_at m k) <= 1)%nat.
Proof.
  induction m as [|[k0 d0] m IH]; simpl; intros H; [lia|].
  inversion H as [|? ? Hnotin Hnd]; subst.
  destruct (key_eqb k0 k) eqn:E; simpl; [|now apply IH].
  apply key_eqb_eq in E. subst k0.
  fold (entries_at m k). rewrite entries_at_notin by assumption. simpl. lia.
Qed.

(* ===================================================================== *)
(** ** The registry *)
(* ===================================================================== *)

(** C5. Registry uniqueness: after every sequence of inputs (connections,
    disconnections and messages, in any order) the registry has no two
    entries with the same deviceId, hence at most one entry under any
    deviceId; and right after a device registers, the registry holds exactly
    one entry under its deviceId, and that entry refers to the registering
    connection. *)
Theorem registry_uniqueness {runtime : JSRuntime} (ins : list input) :
  let srv := next (run boot ins) in
  NoDup (map fst (srv_devices srv)) /\
  (forall k, (List.length (entries_at (srv_devices srv) k) <= 1)%nat) /\
  forall (sid : string) (deviceId name : option string) (now : Z),
    let s := Socket sid (device_query deviceId name) in
    let srv' := next (step srv (Connect s now)) in
    NoDup (map fst (srv_devices srv')) /\
    exists d,
      entries_at (srv_devices srv') deviceId = [(deviceId, d)] /\
      socketId d = sid.
Proof.
  intros srv.
  assert (Hnd : NoDup (map fst (srv_devices srv)))
    by (apply run_NoDup, boot_NoDup).
  split; [exact Hnd|]. split; [intros k; now apply entries_at_NoDup|].
  intros sid deviceId name now s srv'. split.
  - now apply step_NoDup.
  - subst srv'. unfold step, react. cbn [next srv_devices].
    rewrite on_connection_store. cbn.
    eexists. split; [now apply entries_at_set|reflexivity].
Qed.

(** C9. A connection that declares the role [device] and presents no
    deviceId is registered all the same: from any reachable state the
    connection listener returns without an exception and leaves exactly one
    entry under the absent key, referring to that connection; a second such
    connection replaces that entry with its own, and the keys of the
    registry stay as they were: nothing is rejected and no identifier is
    generated. *)
Theorem device_without_id_is_registered {runtime : JSRuntime}
    (ins : list input) (sid1 sid2 : string) (name1 name2 : option string)
    (now1 now2 : Z) :
  let srv := next (run boot ins) in
  let s1 := Socket sid1 (device_query None name1) in
  let s2 := Socket sid2 (device_query None name2) in
  let r1 := step srv (Connect s1 now1) in
  let r2 := step (next r1) (Connect s2 now2) in
  thrown r1 = None /\
  entries_at (srv_devices (next r1)) None =
    [(None, {| socketId := sid1; name := display_name s1;
               connectedAt := now1; lastSeen := None |})] /\
  thrown r2 = None /\
  entries_at (srv_devices (next r2)) None =
    [(None, {| socketId := sid2; name := display_name s2;
               connectedAt := now2; lastSeen := None |})] /\
  map fst (srv_devices (next r2)) = map fst (srv_devices (next r1)).
Proof.
  intros srv s1 s2 r1 r2.
  assert (Hnd : NoDup (map fst (srv_devices srv)))
    by (apply run_NoDup, boot_NoDup).
  assert (Hnd1 : NoDup (map fst (srv_devices (next r1))))
    by now apply step_NoDup.
  subst r2. revert Hnd1. subst r1. unfold step, react.
  cbn [next srv_devices srv_sockets thrown].
  rewrite !on_connection_result, !on_connection_store. cbn.
  intros Hnd1. repeat split.
  - now apply entries_at_set.
  - now apply entries_at_set.
  - apply Map_set_present_keys. unfold Map_has.
    now rewrite Map_get_set_same.
Qed.

Example two_anonymous_devices_collide :
  srv_devices
    (next (run (runtime := Reference.runtime) boot
             [Connect Examples.anonymous1 5; Connect Examples.anonymous2 6])) =
  [(None, {| socketId := "A2"; name := "Tab";
             connectedAt := 6; lastSeen := None |})].
Proof. reflexivity. Qed.

(* ===================================================================== *)
(** ** Events that leave the registry alone *)
(* ===================================================================== *)

(** C10. Frame property: the listener of every event other than
    [heartbeat] leaves the registry as it found it, whether it returns or
    throws: the same entries in the same order, each with the same
    socketId, name, connectedAt and lastSeen.  The same holds of the server
    when such an event arrives as a message. *)
Theorem registry_frame {runtime : JSRuntime} (clock : nat -> Z)
    (socket : socket) (ev : inbound) (srv : server) :
  is_heartbeat ev = false ->
  store (on_event clock socket ev (srv_devices srv)) = srv_devices srv /\
  srv_devices (next (step srv (Message (id socket) ev clock))) =
  srv_devices srv.
Proof.
  intros Hev. split.
  - now apply on_event_store.
  - simpl. destruct (find_socket (srv_sockets srv) (id socket)); simpl.
    + now apply on_event_store.
    + reflexivity.
Qed.

Lemma registry_frame_witness :
  let srv := next (run (runtime := Reference.runtime) boot
                     [Connect Examples.phone1 5; Connect Examples.dashboard 6]) in
  let ev := update_config (VObj [("targetId", VStr "D"); ("config", VNum 3)]) in
  is_heartbeat ev = false /\
  store (on_event (runtime := Reference.runtime) Examples.noon
           Examples.dashboard ev (srv_devices srv)) = srv_devices srv /\
  srv_devices (next (step (runtime := Reference.runtime) srv
                       (Message (id Examples.dashboard) ev Examples.noon))) =
  srv_devices srv.
Proof.
  intros srv ev. split; [reflexivity|].
  apply (registry_frame (runtime := Reference.runtime)). reflexivity.
Defined.

(* ===================================================================== *)
(** ** Unicast to a target that is not registered *)
(* ===================================================================== *)

Lemma get_prop_truthy_object (v : value) (p : string) (t : value) :
  get_prop v p = inr t -> truthy t = true ->
  exists fields, v = VObj fields /\ own_property fields p = t.
Proof.
  destruct v; simpl; intros H Ht; try discriminate;
    try (injection H as <-; discriminate).
  exists fields. split; [reflexivity|]. now injection H.
Qed.

(** C8. A unicast to a target id that has no entry in the registry is a
    silent no-op.  [sendToDevice] then emits nothing, throws nothing and
    leaves the registry alone, whatever the event and the data; and so does
    the whole listener of every targeted event (a command, a quality or
    config update, a WebRTC offer or ICE candidate) that carries a truthy
    target id without an entry, provided its log line can be printed.  With
    a string as target id the log line always prints, but for
    [update_video_quality], whose log line prints [data.quality]. *)
Theorem unknown_target_is_silent {runtime : JSRuntime} :
  (forall (devices : registry) (targetId : value) (event : string)
          (data : value),
      Map_get_value devices targetId = None ->
      sendToDevice targetId event data devices =
      Outcome devices [] (inr tt)) /\
  (forall (clock : nat -> Z) (socket : socket) (ev : inbound)
          (devices : registry) (t : value),
      target_id ev = Some t ->
      truthy t = true ->
      Map_get_value devices t = None ->
      console_log ev = inr tt ->
      on_event clock socket ev devices = Outcome devices [] (inr tt)) /\
  (forall (ev : inbound) (s : string),
      target_id ev = Some (VStr s) ->
      console_log ev = inr tt \/ exists data, ev = update_video_quality data).
Proof.
  split; [exact sendToDevice_unknown|]. split;
    [|intros ev s Htarget;
      destruct ev; simpl in Htarget; try discriminate Htarget;
      try (left; reflexivity);
      try (injection Htarget as ->; left; reflexivity);
      right; now exists data].
  intros clock socket ev devices t Htarget Ht Hnone Hlog.
  unfold on_event. rewrite Hlog. clear Hlog.
  destruct ev; simpl in Htarget; try discriminate Htarget;
    try (injection Htarget as ->; eval_handler; rewrite Ht; simpl;
         rewrite Hnone; reflexivity).
  - (* update_video_quality *)
    destruct (get_prop data "targetId") as [e|t'] eqn:Hp; [discriminate|].
    injection Htarget as ->.
    destruct (get_prop_truthy_object _ _ _ Hp Ht) as [fields [-> Hown]].
    eval_handler. rewrite ?Hown, Ht. simpl. rewrite Hnone. reflexivity.
  - (* update_config *)
    destruct (get_prop data "targetId") as [e|t'] eqn:Hp; [discriminate|].
    injection Htarget as ->.
    destruct (get_prop_truthy_object _ _ _ Hp Ht) as [fields [-> Hown]].
    eval_handler. rewrite ?Hown, Ht. simpl. rewrite Hnone. reflexivity.
  - (* webrtc_offer *)
    destruct data; simpl in Htarget; try discriminate Htarget;
      try (injection Htarget as <-; discriminate Ht).
    + destruct (JSON_parse s) as [payload|] eqn:Hparse; [|discriminate].
      destruct (get_prop payload "targetId") as [e|t'] eqn:Hp;
        [discriminate|].
      injection Htarget as ->.
      destruct (get_prop_truthy_object _ _ _ Hp Ht) as [fields [-> Hown]].
      eval_handler. rewrite Hparse. simpl. rewrite ?Hown, Ht. simpl.
      rewrite Hnone. reflexivity.
    + injection Htarget as Hown.
      eval_handler. rewrite ?Hown, Ht. simpl. rewrite Hnone. reflexivity.
  - (* webrtc_ice_candidate *)
    destruct (get_prop (try_parse_if_string data) "targetId")
      as [e|t'] eqn:Hp; [discriminate|].
    injection Htarget as ->.
    destruct (get_prop_truthy_object _ _ _ Hp Ht) as [fields [Hobj Hown]].
    eval_handler. rewrite Hobj. simpl. rewrite ?Hown, Ht. simpl.
    destruct (own_property fields "candidate"); simpl;
      rewrite Hnone; reflexivity.
Qed.

Lemma unknown_target_is_silent_witness :
  let devices := srv_devices Examples.two_peers in
  let ev := webrtc_ice_candidate (VStr Examples.ice_for_ghost) in
  (Map_get_value devices (VStr "ghost") = None /\
   sendToDevice (VStr "ghost") "GET_STATUS" VUndefined devices =
   Outcome devices [] (inr tt)) /\
  (target_id (runtime := Reference.runtime) ev = Some (VStr "ghost") /\
   truthy (VStr "ghost") = true /\
   Map_get_value devices (VStr "ghost") = None /\
   console_log ev = inr tt /\
   on_event (runtime := Reference.runtime) Examples.noon Examples.dashboard
     ev devices = Outcome devices [] (inr tt)).
Proof.
  intros devices ev.
  destruct (unknown_target_is_silent (runtime := Reference.runtime))
    as [Hsend [Hevent _]].
  assert (Hnone : Map_get_value devices (VStr "ghost") = None)
    by (vm_compute; reflexivity).
  assert (Htarget : target_id (runtime := Reference.runtime) ev
                    = Some (VStr "ghost")) by (vm_compute; reflexivity).
  split; [split; [exact Hnone|now apply Hsend]|].
  split; [exact Htarget|]. split; [reflexivity|]. split; [exact Hnone|].
  split; [reflexivity|].
  apply (Hevent Examples.noon Examples.dashboard ev devices (VStr "ghost"));
    [exact Htarget|reflexivity|exact Hnone|reflexivity].
Defined.

(* ===================================================================== *)
(** ** Commands *)
(* ===================================================================== *)

Lemma known_target_is_string (devices : registry) (t : value) (d : device) :
  truthy t = true -> Map_get_value devices t = Some d ->
  exists s, t = VStr s.
Proof.
  destruct t; simpl; intros Ht H; try discriminate. now exists s.
Qed.

(** C3, as the code has it.  For every command event of the routing table
    (get_status, start_monitoring, stop_monitoring, start_video, stop_video,
    switch_camera, toggle_flash, brightness_up, brightness_down,
    update_config, get_config, get_storage_stats, hide_app, show_app,
    START_MANUAL_RECORDING, STOP_MANUAL_RECORDING):
    - with a truthy target id that is registered, the listener emits
      exactly one event, the renamed command, to the room of the target's
      socket, which only the connection with that socket id receives;
    - with no (or a falsy) target id, the ten commands that older clients
      also send (get_status .. brightness_down, update_config) emit exactly
      one event, the renamed command, to every connection but the sender;
    - with no (or a falsy) target id, hide_app, show_app and the two
      manual-recording commands emit nothing. *)
Theorem command_routing {runtime : JSRuntime} (clock : nat -> Z)
    (socket : socket) (ev : inbound) (devices : registry) (cmd : string)
    (t : value) :
  command_name ev = Some cmd ->
  target_id ev = Some t ->
  (forall d,
      truthy t = true ->
      Map_get_value devices t = Some d ->
      socketId d <> "" ->
      let e := Emission (ToRoom (socketId d)) cmd (Data (command_data ev)) in
      on_event clock socket ev devices = Outcome devices [e] (inr tt) /\
      forall c, receives e c = (id c =? socketId d)) /\
  (truthy t = false ->
   falls_back ev = true ->
   let e := Emission (ToOthers (id socket)) cmd (fallback_args ev) in
   on_event clock socket ev devices = Outcome devices [e] (inr tt) /\
   forall c, receives e c = negb (id c =? id socket)) /\
  (truthy t = false ->
   targeted_only ev = true ->
   on_event clock socket ev devices = Outcome devices [] (inr tt)).
Proof.
  intros Hcmd Htarget. split; [|split].
  - intros d Ht Hget Hsock e. split; [|reflexivity]. subst e.
    destruct (known_target_is_string _ _ _ Ht Hget) as [tid ->].
    apply String.eqb_neq in Hsock.
    assert (Hne : (tid =? "") = false)
      by (simpl in Ht; now destruct (tid =? "")).
    destruct ev; simpl in Hcmd; try discriminate Hcmd;
      injection Hcmd as <-; simpl in Htarget;
      try (injection Htarget as ->; eval_handler; rewrite Hne; simpl;
           rewrite Hget, Hsock; reflexivity).
    (* update_config *)
    destruct (get_prop data "targetId") as [x|t'] eqn:Hp; [discriminate|].
    injection Htarget as ->.
    destruct (get_prop_truthy_object _ _ _ Hp Ht) as [fields [-> Hown]].
    eval_handler. rewrite ?Hown. simpl. rewrite Hne. simpl.
    rewrite Hget, Hsock. reflexivity.
  - intros Ht Hfb e. split; [|reflexivity]. subst e.
    destruct ev; simpl in Hfb; try discriminate Hfb;
      simpl in Hcmd; injection Hcmd as <-; simpl in Htarget;
      try (injection Htarget as ->; eval_handler; rewrite Ht; reflexivity).
    (* update_config *)
    destruct data; simpl in Htarget; try discriminate Htarget;
      injection Htarget as Hown; eval_handler;
      try (rewrite Hown); try (subst t); simpl; try rewrite Ht; reflexivity.
  - intros Ht Honly.
    destruct ev; simpl in Honly; try discriminate Honly;
      simpl in Htarget; injection Htarget as ->;
      destruct t; simpl in Ht; try discriminate Ht;
      eval_handler; rewrite ?Ht; reflexivity.
Qed.

Lemma command_routing_witness :
  let devices := srv_devices Examples.two_peers in
  let on := on_event (runtime := Reference.runtime) Examples.noon
              Examples.dashboard in
  let config := VObj [("interval", VNum 30)] in
  let update := update_config (VObj [("targetId", VStr "D");
                                      ("config", config)]) in
  (* unicast *)
  (command_name update = Some "UPDATE_CONFIG" /\
   target_id (runtime := Reference.runtime) update = Some (VStr "D") /\
   on update devices =
   Outcome devices [Emission (ToRoom "C1") "UPDATE_CONFIG" (Data config)]
     (inr tt)) /\
  (* fallback broadcast *)
  (command_name (start_monitoring VUndefined) = Some "START_AUDIO" /\
   falls_back (start_monitoring VUndefined) = true /\
   on (start_monitoring VUndefined) devices =
   Outcome devices [Emission (ToOthers "W1") "START_AUDIO" NoArgs] (inr tt)) /\
  (* no fallback *)
  (command_name (show_app VUndefined) = Some "SHOW_APP" /\
   targeted_only (show_app VUndefined) = true /\
   on (show_app VUndefined) devices = Outcome devices [] (inr tt)).
Proof.
  intros devices on config update.
  pose (phone := {| socketId := "C1"; name := "Pixel";
                    connectedAt := 5; lastSeen := None |}).
  split; [|split].
  - split; [reflexivity|]. split; [reflexivity|].
    destruct (command_routing (runtime := Reference.runtime) Examples.noon
                Examples.dashboard update devices "UPDATE_CONFIG" (VStr "D")
                eq_refl eq_refl) as [Hunicast _].
    assert (Hsock : socketId phone <> "") by discriminate.
    exact (proj1 (Hunicast phone eq_refl eq_refl Hsock)).
  - split; [reflexivity|]. split; [reflexivity|].
    destruct (command_routing (runtime := Reference.runtime) Examples.noon
                Examples.dashboard (start_monitoring VUndefined) devices
                "START_AUDIO" VUndefined eq_refl eq_refl)
      as [_ [Hfallback _]].
    exact (proj1 (Hfallback eq_refl eq_refl)).
  - split; [reflexivity|]. split; [reflexivity|].
    destruct (command_routing (runtime := Reference.runtime) Examples.noon
                Examples.dashboard (show_app VUndefined) devices
                "SHOW_APP" VUndefined eq_refl eq_refl)
      as [_ [_ Hnone]].
    exact (Hnone eq_refl eq_refl).
Defined.

(** C3 fails as stated: [hide_app] is in the set and has no fallback.  A
    dashboard that sends it without a target id while a device is connected
    makes the server emit nothing, so the device, a connection other than
    the sender, is not sent [HIDE_APP]. *)
Lemma hide_app_without_target_is_not_broadcast :
  let devices := srv_devices Examples.two_peers in
  let o := on_event (runtime := Reference.runtime) Examples.noon
             Examples.dashboard (hide_app VUndefined) devices in
  In Examples.phone1 (srv_sockets Examples.two_peers) /\
  id Examples.phone1 <> id Examples.dashboard /\
  command_name (hide_app VUndefined) = Some "HIDE_APP" /\
  sent o = [] /\
  ~ (exists e, In e (sent o) /\ event e = "HIDE_APP" /\
               receives e Examples.phone1 = true).
Proof.
  intros devices o.
  split; [now left|]. split; [discriminate|]. split; [reflexivity|].
  split; [reflexivity|]. intros [e [Hin _]]. exact Hin.
Qed.

(* ===================================================================== *)
(** ** Media streams *)
(* ===================================================================== *)

(** C4, as the code has it.  When the sending connection is found in the
    registry under a truthy (non-empty) deviceId [k], [audio_stream] emits
    exactly one [audio_data] and [video_frame] exactly one [video_data], to
    every connection, the sender included, with the payload wrapped as
    [{deviceId: k, data}].  When no entry of the registry refers to the
    sending connection (a dashboard, or a device whose entry was replaced or
    removed), both listeners emit nothing. *)
Theorem stream_relay {runtime : JSRuntime} (clock : nat -> Z)
    (socket : socket) (data : value) (devices : registry) :
  (forall k,
      getDeviceIdBySocketId devices (id socket) = Some k ->
      truthy (key_value k) = true ->
      on_event clock socket (audio_stream data) devices =
      Outcome devices [Emission ToAll "audio_data" (Data (wrap k data))]
        (inr tt) /\
      on_event clock socket (video_frame data) devices =
      Outcome devices [Emission ToAll "video_data" (Data (wrap k data))]
        (inr tt) /\
      forall ev p c, receives (Emission ToAll ev p) c = true) /\
  (getDeviceIdBySocketId devices (id socket) = None ->
   on_event clock socket (audio_stream data) devices =
   Outcome devices [] (inr tt) /\
   on_event clock socket (video_frame data) devices =
   Outcome devices [] (inr tt)).
Proof.
  split.
  - intros k Hk Ht. repeat split;
      eval_handler; rewrite Hk; simpl in *; rewrite Ht; reflexivity.
  - intros Hk. split; eval_handler; rewrite Hk; reflexivity.
Qed.

Lemma stream_relay_witness :
  let devices := srv_devices Examples.two_peers in
  let on := on_event (runtime := Reference.runtime) Examples.noon in
  (getDeviceIdBySocketId devices (id Examples.phone1) = Some (Some "D") /\
   truthy (key_value (Some "D")) = true /\
   on Examples.phone1 (audio_stream (VStr "pcm")) devices =
   Outcome devices
     [Emission ToAll "audio_data"
        (Data (VObj [("deviceId", VStr "D"); ("data", VStr "pcm")]))]
     (inr tt) /\
   receives (Emission ToAll "audio_data"
               (Data (VObj [("deviceId", VStr "D"); ("data", VStr "pcm")])))
     Examples.phone1 = true) /\
  (getDeviceIdBySocketId devices (id Examples.dashboard) = None /\
   on Examples.dashboard (video_frame (VStr "jpeg")) devices =
   Outcome devices [] (inr tt)).
Proof.
  intros devices on. split.
  - split; [reflexivity|]. split; [reflexivity|].
    destruct (stream_relay (runtime := Reference.runtime) Examples.noon
                Examples.phone1 (VStr "pcm") devices) as [H _].
    destruct (H (Some "D") eq_refl eq_refl) as [Ha [_ Hr]].
    split; [exact Ha|apply Hr].
  - split; [reflexivity|].
    destruct (stream_relay (runtime := Reference.runtime) Examples.noon
                Examples.dashboard (VStr "jpeg") devices) as [_ H].
    exact (proj2 (H eq_refl)).
Defined.

(** C4 fails as stated: a dashboard is a connection too, and when it sends
    [audio_stream] no [audio_data] is delivered to anyone. *)
Lemma audio_stream_from_dashboard_is_dropped :
  let r := step (runtime := Reference.runtime) Examples.two_peers
             (Message (id Examples.dashboard) (audio_stream (VStr "pcm"))
                Examples.noon) in
  In Examples.dashboard (srv_sockets Examples.two_peers) /\
  thrown r = None /\
  emitted r = [] /\
  ~ (exists e, In e (emitted r) /\ event e = "audio_data" /\
               receives e Examples.dashboard = true).
Proof.
  intros r. split; [right; now left|]. split; [reflexivity|].
  split; [reflexivity|]. intros [e [Hin _]]. exact Hin.
Qed.

(* ===================================================================== *)
(** ** Disconnection *)
(* ===================================================================== *)

Lemma find_socket_Some (l : list socket) (sid : string) (s : socket) :
  find_socket l sid = Some s -> In s l /\ id s = sid.
Proof.
  unfold find_socket. intros H. apply find_some in H as [Hin Heq].
  split; [exact Hin|]. now apply String.eqb_eq.
Qed.

Lemma remove_socket_In (l : list socket) (sid : string) (c : socket) :
  In c (remove_socket l sid) <-> In c l /\ id c <> sid.
Proof.
  unfold remove_socket. rewrite filter_In, negb_true_iff, String.eqb_neq.
  reflexivity.
Qed.

(** The reactions of the server to a connection and to the disconnection
    of a device, written out. *)
Lemma step_connect_device {runtime : JSRuntime} (srv : server) (s : socket)
    (now : Z) :
  is_device s = true ->
  let devices' := Map_set (srv_devices srv) (query_deviceId (query s))
                    {| socketId := id s; name := display_name s;
                       connectedAt := now; lastSeen := None |} in
  step srv (Connect s now) =
  {| next := {| srv_devices := devices';
                srv_sockets := (srv_sockets srv ++ [s])%list |};
     emitted := [roster_update (ToOthers (id s)) devices'];
     thrown := None |}.
Proof.
  intros Hdev. unfold step, react. eval_handler. rewrite Hdev. reflexivity.
Qed.

Lemma step_connect_other {runtime : JSRuntime} (srv : server) (s : socket)
    (now : Z) :
  is_device s = false ->
  step srv (Connect s now) =
  {| next := {| srv_devices := srv_devices srv;
                srv_sockets := (srv_sockets srv ++ [s])%list |};
     emitted := [roster_update (ToSocket (id s)) (srv_devices srv)];
     thrown := None |}.
Proof.
  intros Hdev. unfold step, react. eval_handler. rewrite Hdev. reflexivity.
Qed.

Lemma step_disconnect_device {runtime : JSRuntime} (srv : server)
    (s : socket) :
  is_device s = true ->
  find_socket (srv_sockets srv) (id s) = Some s ->
  let devices' := Map_delete (srv_devices srv) (query_deviceId (query s)) in
  step srv (Disconnect (id s)) =
  {| next := {| srv_devices := devices';
                srv_sockets := remove_socket (srv_sockets srv) (id s) |};
     emitted := [roster_update (ToOthers (id s)) devices'];
     thrown := None |}.
Proof.
  intros Hdev Hfind. unfold step. rewrite Hfind. unfold react. eval_handler.
  rewrite Hdev. reflexivity.
Qed.

(** What the disconnect listener of a device connection does, on any state:
    it deletes the registry entry stored under the connection's deviceId
    without looking at which connection that entry refers to.  Afterwards
    the registry is the old one with that key deleted, and it holds no entry
    under the deviceId. *)
Theorem disconnect_evicts_unconditionally {runtime : JSRuntime}
    (srv : server) (s : socket) :
  NoDup (map fst (srv_devices srv)) ->
  find_socket (srv_sockets srv) (id s) = Some s ->
  is_device s = true ->
  let r := step srv (Disconnect (id s)) in
  thrown r = None /\
  srv_devices (next r) =
    Map_delete (srv_devices srv) (query_deviceId (query s)) /\
  Map_get (srv_devices (next r)) (query_deviceId (query s)) = None.
Proof.
  intros Hnd Hfind Hdev r. subst r.
  rewrite (step_disconnect_device srv s Hdev Hfind).
  cbn [next thrown srv_devices].
  repeat split. now apply Map_get_delete_same.
Qed.

Lemma disconnect_evicts_unconditionally_witness :
  let srv := next (run (runtime := Reference.runtime) boot
                     [Connect Examples.phone1 5; Connect Examples.phone2 7]) in
  let r := step (runtime := Reference.runtime) srv (Disconnect "C1") in
  (NoDup (map fst (srv_devices srv)) /\
   find_socket (srv_sockets srv) "C1" = Some Examples.phone1 /\
   is_device Examples.phone1 = true /\
   Map_get (srv_devices srv) (Some "D") =
     Some {| socketId := "C2"; name := "Pixel";
             connectedAt := 7; lastSeen := None |}) /\
  thrown r = None /\
  srv_devices (next r) = Map_delete (srv_devices srv) (Some "D") /\
  Map_get (srv_devices (next r)) (Some "D") = None.
Proof.
  intros srv r.
  assert (Hnd : NoDup (map fst (srv_devices srv))).
  { simpl. constructor; [intros []|constructor]. }
  split; [split; [exact Hnd|]; repeat split|].
  exact (disconnect_evicts_unconditionally (runtime := Reference.runtime)
           srv Examples.phone1 Hnd eq_refl eq_refl).
Defined.

(** C1 fails, and the failure is a defect of the disconnect listener.
    D registers with C1, reconnects with C2, then the disconnect of C1 is
    delivered.
    - Before the disconnect the registry is D -> C2, and no entry refers to
      C1: the heartbeat listener, which finds the sender's own entry with
      [getDeviceIdBySocketId] before it writes, leaves the registry as it is
      when C1 sends a heartbeat.
    - The disconnect listener of C1 deletes by deviceId without that lookup:
      the registry is empty afterwards, it does not contain D -> C2, while
      C2 is still an open device connection.
    - From then on the connected device is out of reach: a command that
      targets D emits nothing, whoever sends it, and an [audio_stream] from
      C2 is dropped. *)
Theorem stale_disconnect_strands_reconnected_device {runtime : JSRuntime}
    (clock : nat -> Z) (timestamp : Z) (data : value) :
  let fresher := {| socketId := "C2"; name := "Pixel";
                    connectedAt := 7; lastSeen := None |} in
  let srv := next (run boot [Connect Examples.phone1 5;
                             Connect Examples.phone2 7]) in
  let r := step srv (Disconnect "C1") in
  (srv_devices srv = [(Some "D", fresher)] /\
   getDeviceIdBySocketId (srv_devices srv) "C1" = None /\
   srv_devices (next (step srv (Message "C1" (heartbeat timestamp) clock))) =
     [(Some "D", fresher)]) /\
  (thrown r = None /\
   srv_devices (next r) = [] /\
   ~ (exists d, Map_get (srv_devices (next r)) (Some "D") = Some d /\
                socketId d = "C2") /\
   find_socket (srv_sockets (next r)) "C2" = Some Examples.phone2 /\
   is_device Examples.phone2 = true) /\
  ((forall sender,
      on_event clock sender (get_status (VStr "D")) (srv_devices (next r)) =
        Outcome (srv_devices (next r)) [] (inr tt)) /\
   step (next r) (Message "C2" (audio_stream data) clock) =
     {| next := next r; emitted := []; thrown := None |}).
Proof.
  intros fresher srv r.
  split; [repeat split|]. split.
  - split; [reflexivity|]. split; [reflexivity|].
    split; [|split; reflexivity].
    intros [d [H _]]. discriminate H.
  - split; [|reflexivity]. intros sender. reflexivity.
Qed.

(* ===================================================================== *)
(** ** The roster *)
(* ===================================================================== *)

Lemma inbox_single (e : emission) (c : socket) :
  receives e c = true -> inbox [e] c = [e].
Proof. intros H. unfold inbox. simpl. now rewrite H. Qed.

(** C6. The roster broadcast.
    - When a device connects, the server emits exactly one event: a
      [device_list_update] that carries the registry as it is after the
      registration (the new device in it), sent to every connection but the
      registering one; every open connection that is not a device gets
      exactly that event.
    - When an open device connection disconnects, the server emits exactly
      one event: a [device_list_update] that carries the registry as it is
      after the deletion (the device absent), and every connection that is
      still open gets exactly that event.
    - When a connection that is not a device connects, the server emits
      exactly one event: a [device_list_update] that carries the registry,
      addressed to that socket; a connection gets it if and only if it has
      the id of the new one. *)
Theorem roster_broadcast {runtime : JSRuntime} (srv : server) (s : socket)
    (now : Z) :
  (is_device s = true ->
   ~ In (id s) (map id (srv_sockets srv)) ->
   let r := step srv (Connect s now) in
   thrown r = None /\
   Map_get (srv_devices (next r)) (query_deviceId (query s)) =
     Some {| socketId := id s; name := display_name s;
             connectedAt := now; lastSeen := None |} /\
   emitted r = [roster_update (ToOthers (id s)) (srv_devices (next r))] /\
   forall c, In c (srv_sockets (next r)) -> is_device c = false ->
             inbox (emitted r) c = emitted r) /\
  (is_device s = true ->
   find_socket (srv_sockets srv) (id s) = Some s ->
   NoDup (map fst (srv_devices srv)) ->
   let r := step srv (Disconnect (id s)) in
   thrown r = None /\
   Map_get (srv_devices (next r)) (query_deviceId (query s)) = None /\
   emitted r = [roster_update (ToOthers (id s)) (srv_devices (next r))] /\
   forall c, In c (srv_sockets (next r)) ->
             inbox (emitted r) c = emitted r) /\
  (is_device s = false ->
   let r := step srv (Connect s now) in
   thrown r = None /\
   srv_devices (next r) = srv_devices srv /\
   emitted r = [roster_update (ToSocket (id s)) (srv_devices srv)] /\
   forall c, inbox (emitted r) c = if id c =? id s then emitted r else []).
Proof.
  split; [|split].
  - intros Hdev Hfresh r. subst r.
    rewrite (step_connect_device srv s now Hdev).
    cbn [next emitted thrown srv_devices srv_sockets].
    split; [reflexivity|]. split; [apply Map_get_set_same|].
    split; [reflexivity|].
    intros c Hin Hc. apply inbox_single. unfold receives, roster_update.
    cbn [dest]. apply negb_true_iff, String.eqb_neq. intros Heq.
    apply in_app_or in Hin as [Hin|[<-|[]]].
    + apply Hfresh. rewrite <- Heq. now apply in_map.
    + congruence.
  - intros Hdev Hfind Hnd r. subst r.
    rewrite (step_disconnect_device srv s Hdev Hfind).
    cbn [next emitted thrown srv_devices srv_sockets].
    split; [reflexivity|]. split; [now apply Map_get_delete_same|].
    split; [reflexivity|].
    intros c Hin. apply inbox_single.
    unfold receives, roster_update. cbn [dest].
    apply negb_true_iff, String.eqb_neq.
    now apply remove_socket_In in Hin.
  - intros Hdev r. subst r.
    rewrite (step_connect_other srv s now Hdev).
    cbn [next emitted thrown srv_devices srv_sockets].
    split; [reflexivity|]. split; [reflexivity|]. split; [reflexivity|].
    intros c. reflexivity.
Qed.

Lemma roster_broadcast_witness :
  let step := step (runtime := Reference.runtime) in
  let srv := Examples.two_peers in
  let tablet := Socket "C9" (device_query (Some "T") None) in
  let wall := Socket "W2" dashboard_query in
  (* a device registers: the dashboard gets the one roster update *)
  (let r := step srv (Connect tablet 8) in
   is_device tablet = true /\
   ~ In (id tablet) (map id (srv_sockets srv)) /\
   emitted r = [roster_update (ToOthers "C9") (srv_devices (next r))] /\
   In Examples.dashboard (srv_sockets (next r)) /\
   inbox (emitted r) Examples.dashboard = emitted r) /\
  (* a device disconnects: so does it *)
  (let r := step srv (Disconnect "C1") in
   find_socket (srv_sockets srv) (id Examples.phone1) = Some Examples.phone1 /\
   NoDup (map fst (srv_devices srv)) /\
   srv_devices (next r) = [] /\
   emitted r = [roster_update (ToOthers "C1") []] /\
   inbox (emitted r) Examples.dashboard = emitted r) /\
  (* a second dashboard connects: it alone gets the roster *)
  (let r := step srv (Connect wall 9) in
   is_device wall = false /\
   emitted r = [roster_update (ToSocket "W2") (srv_devices srv)] /\
   inbox (emitted r) wall = emitted r /\
   inbox (emitted r) Examples.dashboard = [] /\
   inbox (emitted r) Examples.phone1 = []).
Proof.
  intros step0 srv tablet wall. subst step0.
  assert (Hfresh : ~ In (id tablet) (map id (srv_sockets srv))).
  { simpl. intros [H|[H|[]]]; discriminate H. }
  assert (Hnd : NoDup (map fst (srv_devices srv))).
  { simpl. constructor; [intros []|constructor]. }
  split; [|split].
  - destruct (roster_broadcast (runtime := Reference.runtime) srv tablet 8)
      as [H _].
    destruct (H eq_refl Hfresh) as [_ [_ [Hemit Hinbox]]].
    split; [reflexivity|]. split; [exact Hfresh|]. split; [exact Hemit|].
    split; [right; now left|].
    apply Hinbox; [right; now left|reflexivity].
  - destruct (roster_broadcast (runtime := Reference.runtime) srv
                Examples.phone1 0) as [_ [H _]].
    destruct (H eq_refl eq_refl Hnd) as [_ [_ [Hemit Hinbox]]].
    split; [reflexivity|]. split; [exact Hnd|]. split; [reflexivity|].
    split; [exact Hemit|]. apply Hinbox. now left.
  - destruct (roster_broadcast (runtime := Reference.runtime) srv wall 9)
      as [_ [_ H]].
    destruct (H eq_refl) as [_ [_ [Hemit Hinbox]]].
    split; [reflexivity|]. split; [exact Hemit|].
    split; [apply (Hinbox wall)|].
    split; [apply (Hinbox Examples.dashboard)|apply (Hinbox Examples.phone1)].
Defined.

(* ===================================================================== *)
(** ** WebRTC signaling with a payload that is not JSON *)
(* ===================================================================== *)

(** [webrtc_ice_candidate] catches the parse error: a string that is not
    JSON has no [targetId], and is broadcast as it came. *)
Lemma webrtc_ice_candidate_unparsable {runtime : JSRuntime}
    (clock : nat -> Z) (socket : socket) (devices : registry) (s : string) :
  JSON_parse s = None ->
  on_event clock socket (webrtc_ice_candidate (VStr s)) devices =
  Outcome devices
    [Emission (ToOthers (id socket)) "webrtc_ice_candidate" (Data (VStr s))]
    (inr tt).
Proof.
  intros H. eval_handler. rewrite H. reflexivity.
Qed.

(** [webrtc_answer] never parses. *)
Lemma webrtc_answer_relays {runtime : JSRuntime}
    (clock : nat -> Z) (socket : socket) (devices : registry) (data : value) :
  on_event clock socket (webrtc_answer data) devices =
  Outcome devices
    [Emission (ToOthers (id socket)) "webrtc_answer" (Data data)] (inr tt).
Proof. reflexivity. Qed.

(** [webrtc_offer] parses outside of any [try]: the SyntaxError leaves the
    listener. *)
Lemma webrtc_offer_unparsable {runtime : JSRuntime}
    (clock : nat -> Z) (socket : socket) (devices : registry) (s : string) :
  JSON_parse s = None ->
  on_event clock socket (webrtc_offer (VStr s)) devices =
  Outcome devices [] (inl SyntaxError).
Proof.
  intros H. eval_handler. rewrite H. reflexivity.
Qed.

(** C2, at the failing input.  The string [not json] is not JSON.  Sent as
    [webrtc_ice_candidate] it is broadcast as it came to every connection
    but the sender, as the claim says; sent as [webrtc_offer] it makes the
    listener throw a SyntaxError, and nothing is relayed. *)
Theorem webrtc_offer_not_json_throws (clock : nat -> Z) (socket : socket)
    (devices : registry) :
  let on := on_event (runtime := Reference.runtime) clock socket in
  Reference.parse "not json" = None /\
  on (webrtc_ice_candidate (VStr "not json")) devices =
  Outcome devices
    [Emission (ToOthers (id socket)) "webrtc_ice_candidate"
       (Data (VStr "not json"))] (inr tt) /\
  on (webrtc_offer (VStr "not json")) devices =
  Outcome devices [] (inl SyntaxError).
Proof.
  intros on.
  assert (H : JSON_parse (JSRuntime := Reference.runtime) "not json" = None)
    by (vm_compute; reflexivity).
  split; [exact H|]. split.
  - now apply webrtc_ice_candidate_unparsable.
  - now apply webrtc_offer_unparsable.
Qed.

(* ===================================================================== *)
(** ** Heartbeat *)
(* ===================================================================== *)

Lemma Map_get_first (m : registry) (k : key) (d : device) :
  NoDup (map fst m) -> In (k, d) m -> Map_get m k = Some d.
Proof.
  induction m as [|[k0 d0] m IH]; simpl; intros Hnd Hin; [contradiction|].
  inversion Hnd as [|? ? Hnotin Hnd']; subst.
  destruct Hin as [[= -> ->]|Hin].
  - now rewrite key_eqb_refl.
  - destruct (key_eqb k0 k) eqn:E; [|now apply IH].
    apply key_eqb_eq in E. subst k0. exfalso. apply Hnotin.
    change k with (fst (k, d)). now apply in_map.
Qed.

(** The reply: exactly one [pong_response], to the sender, with the two
    clock readings and the client's timestamp. *)
Lemma heartbeat_pong {runtime : JSRuntime} (clock : nat -> Z)
    (socket : socket) (timestamp : Z) (devices : registry) :
  let o := on_event clock socket (heartbeat timestamp) devices in
  sent o = [Emission (ToSocket (id socket)) "pong_response"
              (Data (pong (clock 0%nat) timestamp
                       (clock 1%nat - timestamp)))] /\
  result o = inr tt /\
  forall c, receives (Emission (ToSocket (id socket)) "pong_response"
                        (Data (pong (clock 0%nat) timestamp
                                 (clock 1%nat - timestamp)))) c
            = (id c =? id socket).
Proof.
  intros o. destruct (heartbeat_sent clock socket timestamp devices) as [A B].
  split; [exact A|]. split; [exact B|]. reflexivity.
Qed.

(** A sender registered under a truthy deviceId gets its [lastSeen] set,
    and nothing else changes: its other fields stay, and so does every
    other entry. *)
Lemma heartbeat_touches_device {runtime : JSRuntime} (clock : nat -> Z)
    (socket : socket) (timestamp : Z) (devices : registry) (k : key) :
  NoDup (map fst devices) ->
  getDeviceIdBySocketId devices (id socket) = Some k ->
  truthy (key_value k) = true ->
  exists d,
    Map_get devices k = Some d /\ socketId d = id socket /\
    let devices' := store (on_event clock socket (heartbeat timestamp)
                             devices) in
    devices' = Map_set devices k (set_lastSeen d (clock 2%nat)) /\
    Map_get devices' k = Some (set_lastSeen d (clock 2%nat)) /\
    forall k', k' <> k -> Map_get devices' k' = Map_get devices k'.
Proof.
  intros Hnd Hk Ht.
  destruct (getDeviceIdBySocketId_Some _ _ _ Hk) as [d [Hin Hs]].
  exists d. pose proof (Map_get_first _ _ _ Hnd Hin) as Hget.
  split; [exact Hget|]. split; [exact Hs|].
  intros devices'. subst devices'.
  rewrite heartbeat_store, Hk, Ht, Hget.
  split; [reflexivity|]. split; [apply Map_get_set_same|].
  intros k' Hne. now apply Map_get_set_other.
Qed.

(** A sender that no entry refers to leaves the registry as it is. *)
Lemma heartbeat_from_unregistered {runtime : JSRuntime} (clock : nat -> Z)
    (socket : socket) (timestamp : Z) (devices : registry) :
  getDeviceIdBySocketId devices (id socket) = None ->
  store (on_event clock socket (heartbeat timestamp) devices) = devices.
Proof.
  intros Hk. now rewrite heartbeat_store, Hk.
Qed.

(** C7, at the failing input.  A device connects with no deviceId and
    sends a heartbeat.  The sender is a registered device: the entry under
    the absent key carries its socket id, and [getDeviceIdBySocketId] finds
    it.  It is sent the one [pong_response], but the registry is left as it
    was: the entry has no [lastSeen]. *)
Theorem heartbeat_skips_device_without_id {runtime : JSRuntime}
    (clock : nat -> Z) (timestamp : Z) :
  let srv := next (step boot (Connect Examples.anonymous1 5)) in
  let r := step srv (Message "A1" (heartbeat timestamp) clock) in
  let entry := {| socketId := "A1"; name := "Unknown Device";
                  connectedAt := 5; lastSeen := None |} in
  srv_devices srv = [(None, entry)] /\
  getDeviceIdBySocketId (srv_devices srv) "A1" = Some None /\
  thrown r = None /\
  emitted r = [Emission (ToSocket "A1") "pong_response"
                 (Data (pong (clock 0%nat) timestamp
                          (clock 1%nat - timestamp)))] /\
  srv_devices (next r) = [(None, entry)] /\
  Map_get (srv_devices (next r)) None = Some entry /\
  lastSeen entry = None.
Proof.
  intros srv r entry. repeat split.
Qed.

(* ===================================================================== *)
(** ** [createWavHeader] *)
(* ===================================================================== *)

Lemma land_255_mod (v : Z) : Z.land v 255 = (v mod 256)%Z.
Proof. change 255%Z with (Z.ones 8). now rewrite Z.land_ones by lia. Qed.

Lemma land_255_byte (v : Z) : is_byte (Z.land v 255) = true.
Proof.
  rewrite land_255_mod. pose proof (Z.mod_pos_bound v 256 eq_refl) as H.
  unfold is_byte. apply andb_true_intro. split; apply Z.leb_le; lia.
Qed.

(** Four bytes, lowest first, spell the number they were cut from. *)
Lemma little_endian_uint32 (v : Z) :
  (0 <= v <= 4294967295)%Z ->
  little_endian [Z.land v 255; Z.land (Z.shiftr v 8) 255;
                 Z.land (Z.shiftr v 16) 255; Z.land (Z.shiftr v 24) 255] = v.
Proof.
  intros H. unfold little_endian. rewrite !land_255_mod.
  rewrite !Z.shiftr_div_pow2 by lia.
  change (2 ^ 8)%Z with 256%Z. change (2 ^ 16)%Z with 65536%Z.
  change (2 ^ 24)%Z with 16777216%Z.
  Z.div_mod_to_equations. lia.
Qed.

Lemma createWavHeader_in_range (n : Z) :
  (0 <= n <= max_data_length)%Z ->
  createWavHeader n = inr (header_bytes n).
Proof.
  unfold max_data_length. intros H. unfold createWavHeader.
  assert (H1 : ((36 + n <? 0) || (4294967295 <? 36 + n))%Z = false).
  { apply orb_false_intro; apply Z.ltb_ge; lia. }
  assert (H2 : ((n <? 0) || (4294967295 <? n))%Z = false).
  { apply orb_false_intro; apply Z.ltb_ge; lia. }
  unfold writeUInt32LE at 1.
  cbn -[Z.land Z.shiftr Z.ltb Z.add]. rewrite H1.
  cbn -[Z.land Z.shiftr Z.ltb Z.add]. unfold writeUInt32LE. rewrite H2.
  reflexivity.
Qed.

Lemma createWavHeader_out_of_range (n : Z) :
  (n < 0 \/ max_data_length < n)%Z ->
  createWavHeader n = inl RangeError.
Proof.
  unfold max_data_length. intros H. unfold createWavHeader.
  unfold writeUInt32LE at 1. cbn -[Z.land Z.shiftr Z.ltb Z.add].
  destruct ((36 + n <? 0) || (4294967295 <? 36 + n))%Z eqn:H1;
    [reflexivity|].
  apply orb_false_elim in H1 as [Ha Hb]. apply Z.ltb_ge in Ha, Hb.
  assert (H2 : ((n <? 0) || (4294967295 <? n))%Z = true).
  { apply orb_true_intro. left. apply Z.ltb_lt. lia. }
  cbn -[Z.land Z.shiftr Z.ltb Z.add]. unfold writeUInt32LE. rewrite H2.
  reflexivity.
Qed.

Lemma createWavHeader_inv (n : Z) (b : buffer) :
  createWavHeader n = inr b ->
  (0 <= n <= max_data_length)%Z /\ b = header_bytes n.
Proof.
  intros H.
  assert (Hr : (0 <= n <= max_data_length)%Z).
  { destruct (Z_lt_dec n 0) as [Hl|Hl];
      [rewrite createWavHeader_out_of_range in H by (now left);
       discriminate|].
    destruct (Z_lt_dec max_data_length n) as [Hg|Hg];
      [rewrite createWavHeader_out_of_range in H by (now right);
       discriminate|].
    lia. }
  split; [exact Hr|]. rewrite createWavHeader_in_range in H by exact Hr.
  now injection H.
Qed.

(** Every data length from 0 to 2^32 - 37 gets a header: 44 bytes, each
    from 0 to 255. *)
Theorem createWavHeader_returns (n : Z) :
  (0 <= n <= max_data_length)%Z ->
  exists b,
    createWavHeader n = inr b /\
    List.length b = 44%nat /\
    forallb is_byte b = true.
Proof.
  intros H. exists (header_bytes n).
  split; [now apply createWavHeader_in_range|]. split; [reflexivity|].
  unfold header_bytes. cbn -[Z.land Z.shiftr Z.add is_byte].
  rewrite !land_255_byte. reflexivity.
Qed.

Lemma createWavHeader_returns_witness :
  (0 <= 1000 <= max_data_length)%Z /\
  exists b,
    createWavHeader 1000 = inr b /\
    List.length b = 44%nat /\
    forallb is_byte b = true.
Proof.
  assert (H : (0 <= 1000 <= max_data_length)%Z)
    by (unfold max_data_length; lia).
  split; [exact H|]. exact (createWavHeader_returns 1000 H).
Defined.

(** A negative data length, or one above 2^32 - 37, makes a write throw a
    RangeError: no header comes back. *)
Theorem createWavHeader_throws (n : Z) :
  (n < 0 \/ max_data_length < n)%Z ->
  createWavHeader n = inl RangeError.
Proof. exact (createWavHeader_out_of_range n). Qed.

Lemma createWavHeader_throws_witness :
  ((-1 < 0 \/ max_data_length < -1)%Z /\
   createWavHeader (-1) = inl RangeError) /\
  ((4294967260 < 0 \/ max_data_length < 4294967260)%Z /\
   createWavHeader 4294967260 = inl RangeError).
Proof.
  assert (H1 : (-1 < 0 \/ max_data_length < -1)%Z) by (left; lia).
  assert (H2 : (4294967260 < 0 \/ max_data_length < 4294967260)%Z)
    by (right; unfold max_data_length; lia).
  split; (split; [assumption|]).
  - exact (createWavHeader_throws (-1) H1).
  - exact (createWavHeader_throws 4294967260 H2).
Defined.

(** Round trip of the two sizes: read back as 32-bit little-endian numbers,
    the bytes at 40 give the data length and the bytes at 4 give it plus
    36. *)
Theorem createWavHeader_sizes (n : Z) (b : buffer) :
  createWavHeader n = inr b ->
  readUIntLE b 40 4 = n /\ readUIntLE b 4 4 = (36 + n)%Z.
Proof.
  intros H. apply createWavHeader_inv in H as [Hr ->].
  unfold max_data_length in Hr. unfold readUIntLE, slice, header_bytes.
  cbn -[Z.land Z.shiftr Z.add little_endian].
  split; apply little_endian_uint32; lia.
Qed.

Lemma createWavHeader_sizes_witness :
  createWavHeader 1000 = inr (header_bytes 1000) /\
  readUIntLE (header_bytes 1000) 40 4 = 1000%Z /\
  readUIntLE (header_bytes 1000) 4 4 = 1036%Z.
Proof.
  assert (H : createWavHeader 1000 = inr (header_bytes 1000))
    by reflexivity.
  split; [exact H|]. exact (createWavHeader_sizes 1000 _ H).
Defined.

(** The fields around the sizes are the same for every data length, the
    largest included: the tags RIFF, WAVE, fmt and data, a 16-byte PCM
    format chunk, one channel, 44100 samples a second, 16 bits a sample;
    and they agree with one another: the block is channels times bytes per
    sample, the byte rate is the sample rate times the block. *)
Theorem createWavHeader_format (n : Z) (b : buffer) :
  createWavHeader n = inr b ->
  slice b 0 4 = char_codes "RIFF" /\
  slice b 8 4 = char_codes "WAVE" /\
  slice b 12 4 = char_codes "fmt " /\
  slice b 36 4 = char_codes "data" /\
  readUIntLE b 16 4 = 16%Z /\
  readUIntLE b 20 2 = 1%Z /\
  let channels := readUIntLE b 22 2 in
  let sampleRate := readUIntLE b 24 4 in
  let byteRate := readUIntLE b 28 4 in
  let blockAlign := readUIntLE b 32 2 in
  let bitsPerSample := readUIntLE b 34 2 in
  channels = 1%Z /\ sampleRate = 44100%Z /\ bitsPerSample = 16%Z /\
  blockAlign = (channels * (bitsPerSample / 8))%Z /\
  byteRate = (sampleRate * blockAlign)%Z.
Proof.
  intros H. apply createWavHeader_inv in H as [_ ->].
  repeat split.
Qed.

Lemma createWavHeader_format_witness :
  createWavHeader max_data_length = inr (header_bytes max_data_length) /\
  slice (header_bytes max_data_length) 0 4 = char_codes "RIFF" /\
  readUIntLE (header_bytes max_data_length) 28 4 = 88200%Z.
Proof.
  assert (H : createWavHeader max_data_length
              = inr (header_bytes max_data_length)) by reflexivity.
  split; [exact H|].
  pose proof (createWavHeader_format max_data_length _ H) as F.
  split; [exact (proj1 F)|]. reflexivity.
Defined.

(* ===================================================================== *)
(** ** [upload_audio_file] *)
(* ===================================================================== *)

Lemma all_safe_app (a b : string) :
  all_safe (a ++ b) = all_safe a && all_safe b.
Proof.
  unfold all_safe. induction a as [|c a IH]; simpl; [reflexivity|].
  rewrite IH. now rewrite andb_assoc.
Qed.

Lemma sanitize_all_safe (s : string) : all_safe (sanitize s) = true.
Proof.
  unfold all_safe. induction s as [|c s IH]; simpl; [reflexivity|].
  rewrite IH, andb_true_r. destruct (is_safe_char c) eqn:E;
    [exact E|reflexivity].
Qed.

Lemma sanitize_safe (s : string) : all_safe s = true -> sanitize s = s.
Proof.
  unfold all_safe. induction s as [|c s IH]; simpl; [reflexivity|].
  intros H. apply andb_prop in H as [Hc Hs]. now rewrite Hc, IH.
Qed.

Lemma drop_all_safe (n : nat) (s : string) :
  all_safe s = true -> all_safe (drop n s) = true.
Proof.
  revert s. induction n as [|n IH]; intros s H; destruct s as [|c s];
    simpl; try exact H.
  apply IH. unfold all_safe in *. simpl in H.
  now apply andb_prop in H as [_ H].
Qed.

Lemma remove_first_all_safe (p s : string) :
  all_safe s = true -> all_safe (remove_first p s) = true.
Proof.
  induction s as [|c s IH]; intros H.
  - cbn [remove_first]. destruct (String.prefix p "");
      [now apply drop_all_safe|exact H].
  - cbn [remove_first]. destruct (String.prefix p (String c s)).
    + now apply drop_all_safe.
    + unfold all_safe in *. simpl in *. apply andb_prop in H as [Hc Hs].
      now rewrite Hc, IH.
Qed.

Lemma length_append (a b : string) :
  String.length (a ++ b) = (String.length a + String.length b)%nat.
Proof. induction a as [|c a IH]; simpl; [reflexivity|now rewrite IH]. Qed.

Lemma all_safe_In (s : string) (c : ascii) :
  all_safe s = true -> In c (list_ascii_of_string s) -> is_safe_char c = true.
Proof.
  unfold all_safe. rewrite forallb_forall. auto.
Qed.

(** What the listener does with its two arguments, case by case. *)
Lemma upload_audio_file_inv (now : Z) (filename : value) (data : upload_data)
    (wavName : string) (wavBuffer : buffer) :
  upload_audio_file now filename data = WriteFile wavName wavBuffer ->
  exists name pcmData,
    js_or filename (VStr ("audio_" ++ string_of_Z now)) = VStr name /\
    data = Binary pcmData /\
    (Z.of_nat (List.length pcmData) <= max_data_length)%Z /\
    wavName = remove_first ".pcm" (sanitize name) ++ ".wav" /\
    wavBuffer = (header_bytes (Z.of_nat (List.length pcmData)) ++ pcmData)%list.
Proof.
  unfold upload_audio_file. destruct (to_string filename); [discriminate|].
  destruct (js_or filename (VStr ("audio_" ++ string_of_Z now))) eqn:Ej;
    try discriminate.
  destruct data as [pcmData|v]; [|destruct (truthy v); discriminate].
  destruct (createWavHeader (Z.of_nat (List.length pcmData))) as [e|h] eqn:E;
    [discriminate|].
  apply createWavHeader_inv in E as [Hr E].
  intros H. injection H as H1 H2. exists s0, pcmData.
  split; [reflexivity|]. split; [reflexivity|]. split; [apply Hr|].
  split; [symmetry; exact H1|]. rewrite <- H2, E. reflexivity.
Qed.

(** A saved recording is a well-formed WAV file: the 44-byte header, then
    the uploaded bytes, unchanged; the data size in the header is the number
    of uploaded bytes, and the RIFF size is the length of the file less 8.
    Once the file is written, the size announced to the dashboards is that
    of the file, header included; a failed write announces nothing. *)
Theorem saved_file_is_wav (now : Z) (filename : value) (data : upload_data)
    (wavName : string) (wavBuffer : buffer) :
  upload_audio_file now filename data = WriteFile wavName wavBuffer ->
  exists pcmData,
    data = Binary pcmData /\
    List.length wavBuffer = (44 + List.length pcmData)%nat /\
    skipn 44 wavBuffer = pcmData /\
    slice wavBuffer 0 4 = char_codes "RIFF" /\
    readUIntLE wavBuffer 4 4 = (Z.of_nat (List.length wavBuffer) - 8)%Z /\
    readUIntLE wavBuffer 40 4 = Z.of_nat (List.length pcmData) /\
    forall date,
      on_file_written true wavName wavBuffer date = [] /\
      on_file_written false wavName wavBuffer date =
      [Emission ToAll "new_recording"
         (Data (VObj [("name", VStr wavName);
                      ("size", VNum (44 + Z.of_nat (List.length pcmData)));
                      ("date", VStr date)]))].
Proof.
  intros H.
  destruct (upload_audio_file_inv _ _ _ _ _ H)
    as [name [pcmData [_ [-> [Hr [_ ->]]]]]].
  exists pcmData. split; [reflexivity|].
  assert (Hlen : List.length
                   (header_bytes (Z.of_nat (List.length pcmData)) ++ pcmData)
                 = (44 + List.length pcmData)%nat)
    by (rewrite length_app; reflexivity).
  split; [exact Hlen|]. split; [reflexivity|]. split; [reflexivity|].
  assert (Hsize : forall T (f : Z -> T),
             f (Z.of_nat (List.length
                            (header_bytes (Z.of_nat (List.length pcmData))
                               ++ pcmData)))
             = f (44 + Z.of_nat (List.length pcmData))%Z).
  { intros T f. now rewrite Hlen, Nat2Z.inj_add. }
  apply and_assoc. split.
  - rewrite Hlen. unfold max_data_length in Hr.
    unfold readUIntLE, slice, header_bytes.
    cbn -[Z.land Z.shiftr Z.add little_endian Z.of_nat].
    split; rewrite little_endian_uint32; lia.
  - intros date. split; [reflexivity|].
    unfold on_file_written.
    apply (Hsize _ (fun n => [Emission ToAll "new_recording"
                                (Data (VObj [("name", VStr _);
                                             ("size", VNum n);
                                             ("date", VStr date)]))])).
Qed.

Lemma saved_file_is_wav_witness :
  let pcm := [1; 2; 3; 255]%Z in
  let file := (header_bytes 4 ++ pcm)%list in
  upload_audio_file 1700 (VStr "rec 1.pcm") (Binary pcm)
  = WriteFile "rec_1.wav" file /\
  List.length file = 48%nat /\
  readUIntLE file 4 4 = 40%Z /\
  readUIntLE file 40 4 = 4%Z.
Proof.
  intros pcm file.
  assert (H : upload_audio_file 1700 (VStr "rec 1.pcm") (Binary pcm)
              = WriteFile "rec_1.wav" file) by reflexivity.
  split; [exact H|].
  destruct (saved_file_is_wav _ _ _ _ _ H)
    as [p [Hp [Hl [_ [_ [Ha [Hb _]]]]]]].
  injection Hp as <-. split; [exact Hl|]. split; [exact Ha|exact Hb].
Defined.

(** The name a recording is saved under cannot leave the uploads
    directory: it consists of letters, digits, dots, underscores and
    hyphens only, so it has no slash and no backslash, and it ends with
    [.wav], so it is neither [.] nor [..]. *)
Theorem saved_name_is_safe (now : Z) (filename : value) (data : upload_data)
    (wavName : string) (wavBuffer : buffer) :
  upload_audio_file now filename data = WriteFile wavName wavBuffer ->
  all_safe wavName = true /\
  (exists stem, wavName = stem ++ ".wav") /\
  ~ In "/"%char (list_ascii_of_string wavName) /\
  ~ In "\"%char (list_ascii_of_string wavName) /\
  wavName <> "." /\ wavName <> "..".
Proof.
  intros H.
  destruct (upload_audio_file_inv _ _ _ _ _ H)
    as [name [pcmData [_ [_ [_ [-> _]]]]]].
  assert (Hsafe : all_safe (remove_first ".pcm" (sanitize name) ++ ".wav")
                  = true).
  { rewrite all_safe_app, remove_first_all_safe by apply sanitize_all_safe.
    reflexivity. }
  split; [exact Hsafe|]. split; [eexists; reflexivity|].
  split; [intros Hin; now apply (all_safe_In _ _ Hsafe) in Hin|].
  split; [intros Hin; now apply (all_safe_In _ _ Hsafe) in Hin|].
  split; intros E; apply (f_equal String.length) in E;
    rewrite length_append in E; simpl in E; lia.
Qed.

Lemma saved_name_is_safe_witness :
  let file := (header_bytes 1 ++ [7%Z])%list in
  upload_audio_file 1700 (VStr "../../etc/cron.d/job") (Binary [7%Z])
  = WriteFile ".._.._etc_cron.d_job.wav" file /\
  all_safe ".._.._etc_cron.d_job.wav" = true /\
  ~ In "/"%char (list_ascii_of_string ".._.._etc_cron.d_job.wav").
Proof.
  intros file.
  assert (H : upload_audio_file 1700 (VStr "../../etc/cron.d/job")
                (Binary [7%Z])
              = WriteFile ".._.._etc_cron.d_job.wav" file) by reflexivity.
  split; [exact H|].
  destruct (saved_name_is_safe _ _ _ _ _ H) as [Hs [_ [Hn _]]].
  split; [exact Hs|exact Hn].
Defined.

Lemma falsy_prints (v : value) :
  truthy v = false -> exists t, to_string v = inr t.
Proof.
  destruct v; simpl; intros H; try discriminate; try (eexists; reflexivity).
  destruct b; [discriminate|eexists; reflexivity].
Qed.

(** When a file is written: exactly when the file name is a string or
    falsy (missing, empty) and the data is a Buffer of at most 2^32 - 37
    bytes.  A file name of another kind, data that is no Buffer, or no data
    at all, write nothing. *)
Theorem upload_writes_iff (now : Z) (filename : value) (data : upload_data) :
  (exists wavName wavBuffer,
      upload_audio_file now filename data = WriteFile wavName wavBuffer) <->
  (truthy filename = false \/ exists s, filename = VStr s) /\
  exists pcmData,
    data = Binary pcmData /\
    (Z.of_nat (List.length pcmData) <= max_data_length)%Z.
Proof.
  split.
  - intros [wavName [wavBuffer H]].
    destruct (upload_audio_file_inv _ _ _ _ _ H)
      as [name [pcmData [Hname [-> [Hr _]]]]].
    split; [|now exists pcmData].
    unfold js_or in Hname. destruct (truthy filename) eqn:Ht; [|now left].
    right. now exists name.
  - intros [Hname [pcmData [-> Hr]]].
    assert (Hp : exists t, to_string filename = inr t).
    { destruct Hname as [Hf|[s ->]]; [now apply falsy_prints|].
      eexists; reflexivity. }
    assert (Hn : exists name,
               js_or filename (VStr ("audio_" ++ string_of_Z now))
               = VStr name).
    { unfold js_or. destruct Hname as [Hf|[s ->]].
      - rewrite Hf. eexists; reflexivity.
      - destruct (truthy (VStr s)); eexists; reflexivity. }
    destruct Hp as [t Hp]. destruct Hn as [name Hn].
    unfold upload_audio_file. rewrite Hp, Hn.
    rewrite createWavHeader_in_range by lia.
    eexists. eexists. reflexivity.
Qed.

Lemma upload_writes_iff_witness :
  (* written *)
  (exists wavName wavBuffer,
      upload_audio_file 5 VUndefined (Binary [])
      = WriteFile wavName wavBuffer) /\
  (* not written: the name is a number, the data is a string, or absent *)
  ~ (exists wavName wavBuffer,
        upload_audio_file 5 (VNum 7) (Binary [])
        = WriteFile wavName wavBuffer) /\
  ~ (exists wavName wavBuffer,
        upload_audio_file 5 (VStr "a.pcm") (NotBinary (VStr "UklGRg"))
        = WriteFile wavName wavBuffer) /\
  upload_audio_file 5 (VStr "a.pcm") (NotBinary VUndefined) = NoData.
Proof.
  split; [|split; [|split]].
  - apply (proj2 (upload_writes_iff 5 VUndefined (Binary []))).
    split; [now left|]. exists []. split; [reflexivity|].
    unfold max_data_length. simpl. lia.
  - intros H. apply (proj1 (upload_writes_iff 5 (VNum 7) (Binary []))) in H.
    destruct H as [[H|[s H]] _]; discriminate H.
  - intros H.
    apply (proj1 (upload_writes_iff 5 (VStr "a.pcm")
                    (NotBinary (VStr "UklGRg")))) in H.
    destruct H as [_ [p [H _]]]. discriminate H.
  - reflexivity.
Defined.

(** The replacement of unsafe characters keeps the length of the name,
    leaves a safe name as it is, and changes nothing when applied again. *)
Theorem sanitize_is_a_projection (s : string) :
  String.length (sanitize s) = String.length s /\
  sanitize (sanitize s) = sanitize s /\
  (all_safe s = true -> sanitize s = s) /\
  (sanitize s = s -> all_safe s = true).
Proof.
  split; [|split; [|split]].
  - induction s as [|c s IH]; simpl; [reflexivity|now rewrite IH].
  - apply sanitize_safe, sanitize_all_safe.
  - apply sanitize_safe.
  - intros E. rewrite <- E. apply sanitize_all_safe.
Qed.

Lemma sanitize_is_a_projection_witness :
  all_safe "my-rec_01.pcm" = true /\ sanitize "my-rec_01.pcm" = "my-rec_01.pcm".
Proof.
  assert (H : all_safe "my-rec_01.pcm" = true) by reflexivity.
  split; [exact H|].
  exact (proj1 (proj2 (proj2 (sanitize_is_a_projection "my-rec_01.pcm"))) H).
Defined.

(* ===================================================================== *)
(** ** What no listener does *)
(* ===================================================================== *)

(** A listener emits at most one event, whatever the event and its
    payload: the broker never multiplies a message. *)
Theorem at_most_one_emission {runtime : JSRuntime} (clock : nat -> Z)
    (socket : socket) (ev : inbound) (devices : registry) :
  (List.length (sent (on_event clock socket ev devices)) <= 1)%nat.
Proof.
  destruct ev; eval_handler; split_tests; simpl; lia.
Qed.

(** A listener that throws has done nothing before: it has emitted no
    event and the registry is as it was. *)
Theorem failed_listener_has_no_effect {runtime : JSRuntime}
    (clock : nat -> Z) (socket : socket) (ev : inbound) (devices : registry)
    (e : exn) :
  result (on_event clock socket ev devices) = inl e ->
  sent (on_event clock socket ev devices) = [] /\
  store (on_event clock socket ev devices) = devices.
Proof.
  destruct ev; eval_handler; split_tests; simpl; intros H;
    try discriminate H; split; reflexivity.
Qed.

(** Whatever an event says, a unicast goes to one place only: the socket
    stored in the registry under the truthy target id of the event.  No
    payload can address a socket that is not registered as a device. *)
Theorem unicast_reaches_registered_target_only {runtime : JSRuntime}
    (clock : nat -> Z) (socket : socket) (ev : inbound) (devices : registry)
    (e : emission) (room : string) :
  In e (sent (on_event clock socket ev devices)) ->
  dest e = ToRoom room ->
  exists t d,
    target_id ev = Some t /\ truthy t = true /\
    Map_get_value devices t = Some d /\ socketId d = room /\ room <> "".
Proof.
  destruct ev; eval_handler; unfold target_id, try_parse_if_string;
    split_tests; intros Hin Hd;
    repeat first
      [ progress subst
      | progress simpl in *
      | discriminate
      | match goal with
        | H : _ \/ _ |- _ => destruct H
        | H : False |- _ => destruct H
        | H : inr _ = inr _ |- _ => injection H as H
        | H : Some _ = Some _ |- _ => injection H as H
        | H : ToRoom _ = ToRoom _ |- _ => injection H as H
        end ];
    try congruence;
    repeat match goal with
           | H1 : ?x = inr ?a, H2 : ?x = inr ?b |- _ =>
               rewrite H1 in H2; injection H2 as H2; subst
           end;
    (eexists; eexists; split; [reflexivity|]; split; [eassumption|];
     split; [eassumption|]; split; [reflexivity|];
     apply String.eqb_neq; apply negb_true_iff; assumption).
Qed.

(** The events with a target and no fallback never broadcast: what they
    emit goes to a room, and with no target id (or a falsy one) they emit
    nothing. *)
Theorem targeted_events_never_broadcast {runtime : JSRuntime}
    (clock : nat -> Z) (socket : socket) (ev : inbound) (devices : registry) :
  targeted_without_fallback ev = true ->
  (forall e, In e (sent (on_event clock socket ev devices)) ->
             exists room, dest e = ToRoom room) /\
  (forall t, target_id ev = Some t -> truthy t = false ->
             sent (on_event clock socket ev devices) = []).
Proof.
  intros Hev. split.
  - destruct ev; try discriminate Hev; eval_handler; split_tests;
      intros em Hin; simpl in Hin;
      repeat match goal with
             | H : _ \/ _ |- _ => destruct H
             | H : False |- _ => destruct H
             end;
      subst; eexists; reflexivity.
  - intros t Ht Hf.
    destruct ev; try discriminate Hev; simpl in Ht;
      try (injection Ht as ->; eval_handler; split_tests;
           simpl in *; congruence).
    (* update_video_quality *)
    eval_handler. split_tests; try reflexivity;
      simpl in *; congruence.
Qed.

(* ===================================================================== *)
(** ** Identity *)
(* ===================================================================== *)

(** The deviceId under which a stream or a permission report is relayed is
    never taken from the payload: it is the key of a registry entry that
    refers to the sending connection, and the payload is carried beside it
    unchanged. *)
Theorem relayed_identity_is_the_senders {runtime : JSRuntime}
    (clock : nat -> Z) (socket : socket) (ev : inbound) (devices : registry)
    (e : emission) (prop : string) (data : value) :
  attributed ev = Some (prop, data) ->
  In e (sent (on_event clock socket ev devices)) ->
  exists k d,
    In (k, d) devices /\ socketId d = id socket /\
    truthy (key_value k) = true /\
    dest e = ToAll /\
    args e = Data (VObj [("deviceId", key_value k); (prop, data)]).
Proof.
  intros Hev.
  destruct ev; try discriminate Hev; simpl in Hev; injection Hev as <- <-;
    eval_handler;
    (destruct (getDeviceIdBySocketId devices (id socket)) as [k|] eqn:Hk;
       simpl; [|intros []]);
    (destruct (truthy (key_value k)) eqn:Ht; simpl; [|intros []]);
    intros [<-|[]];
    destruct (getDeviceIdBySocketId_Some _ _ _ Hk) as [d [Hin Hs]];
    exists k, d; repeat split; assumption.
Qed.

Lemma Map_set_lastSeen_identity (m : registry) (k : key) (d : device)
    (t : Z) :
  Map_get m k = Some d ->
  map identity (Map_set m k (set_lastSeen d t)) = map identity m.
Proof.
  induction m as [|[k0 d0] m IH]; simpl; [discriminate|].
  destruct (key_eqb k0 k) eqn:E; simpl.
  - intros [= ->]. reflexivity.
  - intros H. now rewrite IH.
Qed.

(** No message changes who is registered: after any listener, heartbeat
    included, the registry has the same keys in the same order, each with
    the socket, name and time of connection it had; only a [lastSeen] can
    differ.  Nor does a message open or close a connection. *)
Theorem messages_keep_identities {runtime : JSRuntime} (clock : nat -> Z)
    (socket : socket) (ev : inbound) (srv : server) :
  map identity (store (on_event clock socket ev (srv_devices srv))) =
    map identity (srv_devices srv) /\
  let srv' := next (step srv (Message (id socket) ev clock)) in
  map identity (srv_devices srv') = map identity (srv_devices srv) /\
  srv_sockets srv' = srv_sockets srv.
Proof.
  assert (H : forall s devices,
             map identity (store (on_event clock s ev devices))
             = map identity devices).
  { intros s devices. destruct ev;
      try (rewrite on_event_store by reflexivity; reflexivity).
    rewrite heartbeat_store.
    destruct (getDeviceIdBySocketId devices (id s)) as [k|]; [|reflexivity].
    destruct (truthy (key_value k)); [|reflexivity].
    destruct (Map_get devices k) eqn:Hg; [|reflexivity].
    now apply Map_set_lastSeen_identity. }
  split; [apply H|]. simpl.
  destruct (find_socket (srv_sockets srv) (id socket)); simpl;
    split; try reflexivity. apply H.
Qed.

(* ===================================================================== *)
(** ** Registration and lookup *)
(* ===================================================================== *)

(** Last registration wins.  Once a device has connected under a deviceId,
    whatever the registry held before, [sendToDevice] for that id emits
    exactly one event, to the room of the new socket; and so does a command
    that carries the id as its target. *)
Theorem registration_routes_unicast {runtime : JSRuntime} (now : Z)
    (s sender : socket) (devices : registry) (d event : string) (data : value)
    (clock : nat -> Z) :
  is_device s = true ->
  query_deviceId (query s) = Some d ->
  d <> "" ->
  id s <> "" ->
  let devices' := store (on_connection now s devices) in
  sendToDevice (VStr d) event data devices' =
    Outcome devices'
      [Emission (ToRoom (id s)) event (Data (default_null data))] (inr tt) /\
  on_event clock sender (get_status (VStr d)) devices' =
    Outcome devices' [Emission (ToRoom (id s)) "GET_STATUS" (Data VNull)]
      (inr tt).
Proof.
  intros Hdev Hq Hd Hs devices'.
  assert (Hget : Map_get_value devices' (VStr d)
                 = Some {| socketId := id s; name := display_name s;
                           connectedAt := now; lastSeen := None |}).
  { subst devices'. rewrite on_connection_store, Hdev, Hq.
    apply Map_get_set_same. }
  assert (Hsend : forall ev v,
             sendToDevice (VStr d) ev v devices' =
             Outcome devices'
               [Emission (ToRoom (id s)) ev (Data (default_null v))]
               (inr tt)).
  { intros ev v. now rewrite (sendToDevice_known _ _ _ _ _ Hget Hs). }
  split; [apply Hsend|].
  apply String.eqb_neq in Hd.
  specialize (Hsend "GET_STATUS" VUndefined).
  unfold on_event. simpl console_log. revert Hsend. eval_handler.
  rewrite Hd. simpl. intros ->. reflexivity.
Qed.

Lemma getDeviceIdBySocketId_superseded (m : registry) (k : key) (d : device)
    (sid : string) :
  NoDup (map fst m) ->
  socketId d <> sid ->
  (forall k' d', In (k', d') m -> socketId d' = sid -> k' = k) ->
  getDeviceIdBySocketId (Map_set m k d) sid = None.
Proof.
  intros Hnd Hd Hown. apply getDeviceIdBySocketId_None.
  intros k' d' Hin Hs. revert Hnd Hown Hin.
  induction m as [|[k0 d0] m IH]; simpl; intros Hnd Hown Hin.
  - destruct Hin as [[= <- <-]|[]]. contradiction.
  - inversion Hnd as [|? ? Hnotin Hnd']; subst.
    destruct (key_eqb k0 k) eqn:E.
    + apply key_eqb_eq in E. subst k0.
      destruct Hin as [[= <- <-]|Hin]; [contradiction|].
      assert (k' = k) by (apply (Hown k' d'); [now right|reflexivity]).
      subst k'. apply Hnotin. change k with (fst (k, d')). now apply in_map.
    + destruct Hin as [[= <- <-]|Hin].
      * apply key_eqb_neq in E. apply E. apply (Hown k0 d0); [now left|].
        reflexivity.
      * apply IH; auto. intros k1 d1 H1 H2. apply (Hown k1 d1); [now right|].
        exact H2.
Qed.

(** A connection whose deviceId another connection registers anew is cut
    off from the registry.  When [s2] connects under the deviceId that held
    the entry of [s1], no entry refers to [s1] any more: its streams and
    permission reports are dropped, and its heartbeats leave the registry as
    it is. *)
Theorem superseded_connection_is_orphaned {runtime : JSRuntime} (now : Z)
    (s1 s2 : socket) (devices : registry) (clock : nat -> Z) (data : value) :
  is_device s2 = true ->
  id s1 <> id s2 ->
  NoDup (map fst devices) ->
  (forall k d, In (k, d) devices -> socketId d = id s1 ->
               k = query_deviceId (query s2)) ->
  let devices' := store (on_connection now s2 devices) in
  getDeviceIdBySocketId devices' (id s1) = None /\
  on_event clock s1 (audio_stream data) devices' =
    Outcome devices' [] (inr tt) /\
  on_event clock s1 (video_frame data) devices' =
    Outcome devices' [] (inr tt) /\
  on_event clock s1 (permission_report data) devices' =
    Outcome devices' [] (inr tt) /\
  forall timestamp,
    store (on_event clock s1 (heartbeat timestamp) devices') = devices'.
Proof.
  intros Hdev Hne Hnd Hown devices'.
  assert (Hk : getDeviceIdBySocketId devices' (id s1) = None).
  { subst devices'. rewrite on_connection_store, Hdev.
    apply getDeviceIdBySocketId_superseded; auto. }
  split; [exact Hk|].
  split; [eval_handler; rewrite Hk; reflexivity|].
  split; [eval_handler; rewrite Hk; reflexivity|].
  split; [eval_handler; rewrite Hk; reflexivity|].
  intros timestamp. now apply heartbeat_from_unregistered.
Qed.

Lemma Map_delete_set_absent (m : registry) (k : key) (d : device) :
  Map_get m k = None -> Map_delete (Map_set m k d) k = m.
Proof.
  induction m as [|[k0 d0] m IH]; simpl.
  - intros _. now rewrite key_eqb_refl.
  - destruct (key_eqb k0 k) eqn:E; [discriminate|]. simpl. rewrite E.
    intros H. now rewrite IH.
Qed.

Lemma find_socket_fresh (l : list socket) (s : socket) :
  ~ In (id s) (map id l) -> find_socket (l ++ [s]) (id s) = Some s.
Proof.
  unfold find_socket. induction l as [|c l IH]; simpl; intros H.
  - now rewrite String.eqb_refl.
  - destruct (id c =? id s) eqn:E.
    + apply String.eqb_eq in E. tauto.
    + apply IH. tauto.
Qed.

Lemma remove_socket_fresh (l : list socket) (s : socket) :
  ~ In (id s) (map id l) -> remove_socket (l ++ [s]) (id s) = l.
Proof.
  unfold remove_socket. induction l as [|c l IH]; simpl; intros H.
  - now rewrite String.eqb_refl.
  - destruct (id c =? id s) eqn:E; simpl.
    + apply String.eqb_eq in E. tauto.
    + rewrite IH; [reflexivity|tauto].
Qed.

(** A session leaves no trace.  When a socket with a fresh id connects
    and then disconnects, the server is as it was before: the same registry
    and the same open connections; for a device, provided its deviceId was
    not registered when it connected. *)
Theorem session_leaves_no_residue {runtime : JSRuntime} (srv : server)
    (s : socket) (now : Z) :
  ~ In (id s) (map id (srv_sockets srv)) ->
  (is_device s = true ->
   Map_get (srv_devices srv) (query_deviceId (query s)) = None) ->
  next (step (next (step srv (Connect s now))) (Disconnect (id s))) = srv.
Proof.
  intros Hfresh Habsent. destruct srv as [devices sockets].
  cbn [srv_devices srv_sockets] in *.
  pose proof (find_socket_fresh _ _ Hfresh) as Hfind.
  destruct (is_device s) eqn:Hdev.
  - rewrite (step_connect_device _ s now Hdev). cbn [next].
    rewrite step_disconnect_device by assumption.
    cbn [next srv_devices srv_sockets].
    rewrite remove_socket_fresh by assumption.
    now rewrite Map_delete_set_absent by auto.
  - rewrite (step_connect_other _ s now Hdev). cbn [next].
    unfold step. cbn [srv_sockets srv_devices]. rewrite Hfind.
    unfold react. cbn [next].
    rewrite on_disconnect_store, Hdev, remove_socket_fresh by assumption.
    reflexivity.
Qed.

(** The reverse lookup is sound and complete: it answers [null] exactly
    when no entry carries the socket id; a key it answers belongs to an
    entry with that socket id; and when the socket ids of the registry are
    distinct, it answers the key of the entry that carries the id. *)
Theorem getDeviceIdBySocketId_finds_the_entry (devices : registry)
    (sid : string) :
  (getDeviceIdBySocketId devices sid = None <->
   forall k d, In (k, d) devices -> socketId d <> sid) /\
  (forall k, getDeviceIdBySocketId devices sid = Some k ->
             exists d, In (k, d) devices /\ socketId d = sid) /\
  (NoDup (map (fun kd => socketId (snd kd)) devices) ->
   forall k d, In (k, d) devices -> socketId d = sid ->
               getDeviceIdBySocketId devices sid = Some k).
Proof.
  split; [apply getDeviceIdBySocketId_None|].
  split; [intros k; apply getDeviceIdBySocketId_Some|].
  induction devices as [|[k0 d0] m IH]; simpl; intros Hnd k d Hin Hs;
    [contradiction|].
  inversion Hnd as [|? ? Hnotin Hnd']; subst.
  destruct Hin as [[= <- <-]|Hin].
  - now rewrite String.eqb_refl.
  - destruct (socketId d0 =? socketId d) eqn:E.
    + apply String.eqb_eq in E. exfalso. apply Hnotin. rewrite E.
      change (socketId d) with ((fun kd => socketId (snd kd)) (k, d)).
      now apply in_map.
    + now apply (IH Hnd' k d).
Qed.

(** A WebRTC payload with a target is routed the same whether it comes as
    an object or as the JSON text of that object. *)
Theorem webrtc_text_or_object {runtime : JSRuntime} (clock : nat -> Z)
    (socket : socket) (devices : registry) (s : string) (payload t : value) :
  JSON_parse s = Some payload ->
  get_prop payload "targetId" = inr t ->
  truthy t = true ->
  on_event clock socket (webrtc_offer (VStr s)) devices =
    on_event clock socket (webrtc_offer payload) devices /\
  on_event clock socket (webrtc_ice_candidate (VStr s)) devices =
    on_event clock socket (webrtc_ice_candidate payload) devices.
Proof.
  intros Hparse Hp Ht.
  destruct (get_prop_truthy_object _ _ _ Hp Ht) as [fields [-> Hown]].
  split; eval_handler; rewrite Hparse; simpl; rewrite Hown, Ht; reflexivity.
Qed.

(** On every reachable state, a heartbeat from a connection that the
    registry holds under a truthy deviceId stamps that entry, which refers
    to the sender, with the clock; every other entry, and the keys and their
    order, stay. *)
Theorem heartbeat_refreshes_lastSeen {runtime : JSRuntime}
    (ins : list input) (socket : socket) (timestamp : Z) (clock : nat -> Z)
    (k : key) :
  let devices := srv_devices (next (run boot ins)) in
  getDeviceIdBySocketId devices (id socket) = Some k ->
  truthy (key_value k) = true ->
  exists d,
    Map_get devices k = Some d /\ socketId d = id socket /\
    let devices' := store (on_event clock socket (heartbeat timestamp)
                             devices) in
    Map_get devices' k = Some (set_lastSeen d (clock 2%nat)) /\
    (forall k', k' <> k -> Map_get devices' k' = Map_get devices k') /\
    map fst devices' = map fst devices.
Proof.
  intros devices Hk Ht.
  assert (Hnd : NoDup (map fst devices)) by (apply run_NoDup, boot_NoDup).
  destruct (heartbeat_touches_device clock socket timestamp devices k
              Hnd Hk Ht) as [d [Hget [Hs [Hstore [Hnew Hother]]]]].
  exists d. split; [exact Hget|]. split; [exact Hs|].
  split; [exact Hnew|]. split; [exact Hother|].
  rewrite Hstore. apply Map_set_present_keys. unfold Map_has.
  now rewrite Hget.
Qed.

(* ===================================================================== *)
(** ** Entries and connections *)
(* ===================================================================== *)

Lemma In_Map_set (m : registry) (k k' : key) (d d' : device) :
  In (k', d') (Map_set m k d) -> (k' = k /\ d' = d) \/ In (k', d') m.
Proof.
  induction m as [|[k0 d0] m IH]; simpl.
  - intros [[= <- <-]|[]]. now left.
  - destruct (key_eqb k0 k) eqn:E; simpl.
    + apply key_eqb_eq in E. subst k0.
      intros [[= <- <-]|H]; [now left|right; now right].
    + intros [H|H]; [right; now left|].
      destruct (IH H) as [?|?]; [now left|right; now right].
Qed.

Lemma In_Map_delete (m : registry) (k k' : key) (d' : device) :
  NoDup (map fst m) ->
  In (k', d') (Map_delete m k) -> In (k', d') m /\ k' <> k.
Proof.
  induction m as [|[k0 d0] m IH]; simpl; intros Hnd; [intros []|].
  inversion Hnd as [|? ? Hnotin Hnd']; subst.
  destruct (key_eqb k0 k) eqn:E; simpl.
  - apply key_eqb_eq in E. subst k0. intros H. split; [now right|].
    intros ->. apply Hnotin. change k with (fst (k, d')). now apply in_map.
  - intros [[= <- <-]|H].
    + split; [now left|]. now apply key_eqb_neq.
    + destruct (IH Hnd' H). split; [now right|assumption].
Qed.

Lemma NoDup_map_injective {A B : Type} (f : A -> B) (l : list A) (a b : A) :
  NoDup (map f l) -> In a l -> In b l -> f a = f b -> a = b.
Proof.
  induction l as [|x l IH]; simpl; intros Hnd Ha Hb Hf; [contradiction|].
  inversion Hnd as [|? ? Hnotin Hnd']; subst.
  destruct Ha as [->|Ha], Hb as [->|Hb]; auto.
  - exfalso. apply Hnotin. rewrite Hf. now apply in_map.
  - exfalso. apply Hnotin. rewrite <- Hf. now apply in_map.
Qed.

Lemma map_id_remove_socket (l : list socket) (sid : string) :
  map id (remove_socket l sid) = filter (fun x => negb (x =? sid)) (map id l).
Proof.
  unfold remove_socket. induction l as [|c l IH]; simpl; [reflexivity|].
  destruct (id c =? sid); simpl; now rewrite IH.
Qed.

Lemma remove_socket_absent (l : list socket) (sid : string) :
  find_socket l sid = None -> remove_socket l sid = l.
Proof.
  unfold find_socket, remove_socket.
  induction l as [|c l IH]; simpl; [reflexivity|].
  destruct (id c =? sid); simpl; [discriminate|].
  intros H. now rewrite IH.
Qed.

Lemma NoDup_filter {A : Type} (f : A -> bool) (l : list A) :
  NoDup l -> NoDup (filter f l).
Proof.
  induction l as [|x l IH]; simpl; intros H; [constructor|].
  inversion H as [|? ? Hnotin Hnd]; subst.
  destruct (f x); [constructor|]; auto.
  rewrite filter_In. tauto.
Qed.

(** One step keeps the three facts together: distinct keys, distinct ids
    of the open connections, and every entry referring to an open device
    connection that registered under its key. *)
Lemma step_keeps_entries_live {runtime : JSRuntime} (srv : server)
    (i : input) :
  NoDup (map fst (srv_devices srv)) ->
  NoDup (map id (srv_sockets srv)) ->
  live_entries srv ->
  (forall s now, i = Connect s now -> ~ In (id s) (map id (srv_sockets srv))) ->
  NoDup (map id (srv_sockets (next (step srv i)))) /\
  live_entries (next (step srv i)).
Proof.
  intros Hkeys Hids Hlive Hfresh.
  destruct i as [s now|sid|sid ev clock].
  - (* Connect *)
    specialize (Hfresh s now eq_refl).
    assert (Hids' : NoDup (map id (srv_sockets srv ++ [s])%list)).
    { rewrite map_app. simpl. apply NoDup_app; [assumption| |].
      - constructor; [intros []|constructor].
      - intros x Hx [<-|[]]. contradiction. }
    destruct (is_device s) eqn:Hdev.
    + rewrite (step_connect_device srv s now Hdev).
      cbn [next srv_devices srv_sockets]. split; [exact Hids'|].
      intros k d Hin. cbn [srv_devices srv_sockets] in *.
      apply In_Map_set in Hin as [[-> ->]|Hin].
      * exists s. split; [apply in_or_app; right; now left|].
        repeat split; assumption.
      * destruct (Hlive k d Hin) as [c [Hc H]]. exists c.
        split; [apply in_or_app; now left|exact H].
    + rewrite (step_connect_other srv s now Hdev).
      cbn [next srv_devices srv_sockets]. split; [exact Hids'|].
      intros k d Hin. cbn [srv_devices srv_sockets] in *.
      destruct (Hlive k d Hin) as [c [Hc H]]. exists c.
      split; [apply in_or_app; now left|exact H].
  - (* Disconnect *)
    unfold step. destruct (find_socket (srv_sockets srv) sid) as [s|] eqn:Hf;
      [|now split].
    apply find_socket_Some in Hf as [Hs Hsid]. unfold react.
    cbn [next srv_devices srv_sockets].
    split; [rewrite map_id_remove_socket; now apply NoDup_filter|].
    intros k d Hin. cbn [srv_devices srv_sockets] in *.
    rewrite on_disconnect_store in Hin.
    assert (Hold : In (k, d) (srv_devices srv) /\
                   (is_device s = true -> k <> query_deviceId (query s))).
    { destruct (is_device s).
      - apply In_Map_delete in Hin as [Hin Hne]; [|assumption]. now split.
      - split; [exact Hin|discriminate]. }
    destruct Hold as [Hin' Hne].
    destruct (Hlive k d Hin') as [c [Hc [Hcid [Hcdev Hck]]]].
    exists c. split; [|repeat split; assumption].
    apply remove_socket_In. split; [exact Hc|].
    intros Heq. assert (c = s).
    { apply (NoDup_map_injective id (srv_sockets srv)); auto. congruence. }
    subst c. apply Hne; [exact Hcdev|]. now symmetry.
  - (* Message *)
    unfold step. destruct (find_socket (srv_sockets srv) sid) as [s|];
      [|now split].
    unfold react. cbn [next srv_devices srv_sockets]. split; [exact Hids|].
    intros k d Hin. cbn [srv_devices srv_sockets] in *.
    assert (Hold : exists d0, In (k, d0) (srv_devices srv)
                              /\ socketId d = socketId d0).
    { destruct (is_heartbeat ev) eqn:Hev.
      - destruct ev; try discriminate Hev. rewrite heartbeat_store in Hin.
        destruct (getDeviceIdBySocketId (srv_devices srv) (id s)) as [k0|];
          [|now exists d].
        destruct (truthy (key_value k0)); [|now exists d].
        destruct (Map_get (srv_devices srv) k0) as [d0|] eqn:Hg;
          [|now exists d].
        apply In_Map_set in Hin as [[-> ->]|Hin]; [|now exists d].
        exists d0. split; [now apply Map_get_Some_in|reflexivity].
      - rewrite on_event_store in Hin by exact Hev. now exists d. }
    destruct Hold as [d0 [Hin0 Hsock]].
    destruct (Hlive k d0 Hin0) as [c [Hc [Hcid H]]]. exists c.
    split; [exact Hc|]. split; [congruence|exact H].
Qed.

Lemma run_keeps_entries_live {runtime : JSRuntime} (ins : list input)
    (srv : server) :
  NoDup (map fst (srv_devices srv)) ->
  NoDup (map id (srv_sockets srv)) ->
  live_entries srv ->
  fresh_connects (map id (srv_sockets srv)) ins = true ->
  NoDup (map id (srv_sockets (next (run srv ins)))) /\
  live_entries (next (run srv ins)).
Proof.
  revert srv. induction ins as [|i ins IH]; intros srv Hkeys Hids Hlive Hf;
    [now split|].
  assert (Hfresh : forall s now, i = Connect s now ->
                                 ~ In (id s) (map id (srv_sockets srv))).
  { intros s now ->. simpl in Hf. apply andb_prop in Hf as [Hf _].
    apply negb_true_iff in Hf. intros Hin.
    assert (existsb (String.eqb (id s)) (map id (srv_sockets srv)) = true).
    { apply existsb_exists. exists (id s). split; [exact Hin|].
      apply String.eqb_refl. }
    congruence. }
  destruct (step_keeps_entries_live srv i Hkeys Hids Hlive Hfresh)
    as [Hids' Hlive'].
  pose proof (step_NoDup srv i Hkeys) as Hkeys'.
  simpl. destruct (thrown (step srv i)); cbn [next]; [now split|].
  apply IH; try assumption.
  destruct i as [s now|sid|sid ev clock]; simpl in Hf.
  - apply andb_prop in Hf as [_ Hf].
    replace (map id (srv_sockets (next (step srv (Connect s now)))))
      with (map id (srv_sockets srv) ++ [id s])%list; [exact Hf|].
    simpl. now rewrite map_app.
  - replace (map id (srv_sockets (next (step srv (Disconnect sid)))))
      with (filter (fun x => negb (x =? sid)) (map id (srv_sockets srv)));
      [exact Hf|].
    rewrite <- map_id_remove_socket. simpl.
    destruct (find_socket (srv_sockets srv) sid) eqn:E; simpl;
      [reflexivity|]. now rewrite remove_socket_absent.
  - replace (srv_sockets (next (step srv (Message sid ev clock))))
      with (srv_sockets srv); [exact Hf|].
    simpl. destruct (find_socket (srv_sockets srv) sid); reflexivity.
Qed.

Lemma distinct_socket_ids (m : registry) :
  NoDup (map fst m) ->
  (forall k d k' d', In (k, d) m -> In (k', d') m ->
                     socketId d = socketId d' -> k = k') ->
  NoDup (map (fun kd => socketId (snd kd)) m).
Proof.
  induction m as [|[k0 d0] m IH]; simpl; intros Hnd Hinj; [constructor|].
  inversion Hnd as [|? ? Hnotin Hnd']; subst.
  constructor.
  - intros Hin. apply in_map_iff in Hin as [[k d] [Hs Hin]]. simpl in Hs.
    apply Hnotin. assert (k0 = k).
    { apply (Hinj k0 d0 k d); [now left|now right|now symmetry]. }
    subst. change k with (fst (k, d)). now apply in_map.
  - apply IH; [assumption|]. intros k d k' d' H1 H2.
    apply Hinj; now right.
Qed.

(** No entry dangles.  After any sequence of inputs in which each
    connecting socket has an id that no open connection has, every entry of
    the registry refers to a connection that is open, is a device and
    registered under the key of the entry; and no two entries refer to the
    same connection. *)
Theorem registry_entries_are_live {runtime : JSRuntime} (ins : list input) :
  fresh_connects [] ins = true ->
  let srv := next (run boot ins) in
  (forall k d, In (k, d) (srv_devices srv) ->
     exists s, In s (srv_sockets srv) /\ id s = socketId d /\
               is_device s = true /\ query_deviceId (query s) = k) /\
  NoDup (map (fun kd => socketId (snd kd)) (srv_devices srv)).
Proof.
  intros Hf srv.
  assert (Hkeys : NoDup (map fst (srv_devices srv)))
    by (apply run_NoDup, boot_NoDup).
  destruct (run_keeps_entries_live ins boot boot_NoDup) as [Hids Hlive];
    [constructor|intros k d []|exact Hf|].
  fold srv in Hids, Hlive. split; [exact Hlive|].
  apply distinct_socket_ids; [exact Hkeys|].
  intros k d k' d' H1 H2 Hs.
  destruct (Hlive k d H1) as [c [Hc [Hcid [_ Hck]]]].
  destruct (Hlive k' d' H2) as [c' [Hc' [Hcid' [_ Hck']]]].
  assert (c = c').
  { apply (NoDup_map_injective id (srv_sockets srv)); auto. congruence. }
  congruence.
Qed.

(* ===================================================================== *)
(** ** The name of a recording without a file name *)
(* ===================================================================== *)

Lemma string_of_uint_plain (d : Decimal.uint) :
  forallb (fun c => is_safe_char c && negb (c =? ".")%char)
    (list_ascii_of_string (NilEmpty.string_of_uint d)) = true.
Proof. induction d; simpl; auto. Qed.

Lemma string_of_Z_plain (n : Z) :
  forallb (fun c => is_safe_char c && negb (c =? ".")%char)
    (list_ascii_of_string (string_of_Z n)) = true.
Proof.
  unfold string_of_Z. destruct (Z.to_int n) as [d|d]; simpl.
  - destruct d; try reflexivity; apply (string_of_uint_plain (_ d)).
  - destruct d; try reflexivity; apply (string_of_uint_plain (_ d)).
Qed.

Lemma remove_first_no_dot (p s : string) :
  forallb (fun c => negb (c =? ".")%char) (list_ascii_of_string s) = true ->
  remove_first (String "." p) s = s.
Proof.
  induction s as [|c s IH]; [reflexivity|].
  intros H. simpl in H. apply andb_prop in H as [Hc Hs].
  cbn [remove_first String.prefix].
  destruct (ascii_dec "." c) as [<-|_]; [discriminate Hc|].
  now rewrite IH.
Qed.

(** Without a file name (none, or an empty one) a recording is saved as
    [audio_<timestamp>.wav], the timestamp in decimal. *)
Theorem upload_without_name (now : Z) (filename : value) (pcmData : buffer) :
  truthy filename = false ->
  (Z.of_nat (List.length pcmData) <= max_data_length)%Z ->
  upload_audio_file now filename (Binary pcmData) =
  WriteFile ("audio_" ++ string_of_Z now ++ ".wav")
    (header_bytes (Z.of_nat (List.length pcmData)) ++ pcmData)%list.
Proof.
  intros Hf Hr. destruct (falsy_prints _ Hf) as [t Hp].
  unfold upload_audio_file, js_or. rewrite Hp, Hf.
  rewrite createWavHeader_in_range by lia.
  pose proof (string_of_Z_plain now) as Hplain.
  assert (Hsafe : all_safe ("audio_" ++ string_of_Z now) = true).
  { rewrite all_safe_app. simpl. unfold all_safe.
    rewrite forallb_forall in *. intros c Hc.
    now apply Hplain, andb_prop in Hc as [Hc _]. }
  rewrite (sanitize_safe _ Hsafe).
  assert (Hdot : forallb (fun c => negb (c =? ".")%char)
                   (list_ascii_of_string ("audio_" ++ string_of_Z now))
                 = true).
  { simpl. rewrite forallb_forall in *. intros c Hc.
    now apply Hplain, andb_prop in Hc as [_ Hc]. }
  change ".pcm" with (String "." "pcm").
  rewrite (remove_first_no_dot _ _ Hdot). reflexivity.
Qed.

(* ===================================================================== *)
(** ** The CORS origins *)
(* ===================================================================== *)

Lemma trimStart_suffix (s : string) :
  exists w, s = w ++ trimStart s.
Proof.
  induction s as [|c s [w IH]]; simpl; [now exists ""|].
  destruct (is_whitespace c); [|now exists ""].
  exists (String c w). simpl. now rewrite <- IH.
Qed.

Lemma trimEnd_prefix (s : string) :
  exists w, s = trimEnd s ++ w.
Proof.
  induction s as [|c s [w IH]]; simpl; [now exists ""|].
  destruct (trimEnd s) eqn:E.
  - destruct (is_whitespace c); [now exists (String c s)|].
    exists w. simpl. now rewrite IH at 1.
  - exists w. simpl. now rewrite IH at 1.
Qed.

Lemma has_comma_app (a b : string) :
  has_comma (a ++ b) = has_comma a || has_comma b.
Proof.
  unfold has_comma. induction a as [|c a IH]; simpl; [reflexivity|].
  now rewrite IH, orb_assoc.
Qed.

Lemma has_comma_trim (s : string) :
  has_comma s = false -> has_comma (trim s) = false.
Proof.
  intros H. unfold trim.
  destruct (trimStart_suffix s) as [w Hw].
  destruct (trimEnd_prefix (trimStart s)) as [w' Hw'].
  rewrite Hw, Hw', !has_comma_app in H.
  apply orb_false_elim in H as [_ H]. now apply orb_false_elim in H as [H _].
Qed.

Lemma split_comma_no_comma (s piece : string) :
  In piece (split_comma s) -> has_comma piece = false.
Proof.
  revert piece. induction s as [|c s IH]; simpl; intros piece.
  - intros [<-|[]]. reflexivity.
  - destruct (c =? ",")%char eqn:E.
    + intros [<-|H]; [reflexivity|now apply IH].
    + destruct (split_comma s) as [|p ps] eqn:Es.
      * intros [<-|[]]. unfold has_comma. simpl. now rewrite E.
      * intros [<-|H].
        -- unfold has_comma. simpl. rewrite E. simpl.
           apply (IH p). now left.
        -- apply IH. now right.
Qed.

Lemma trimStart_first (s : string) (c : ascii) :
  first_char (trimStart s) = Some c -> is_whitespace c = false.
Proof.
  induction s as [|x s IH]; simpl; [discriminate|].
  destruct (is_whitespace x) eqn:E; [exact IH|].
  simpl. now intros [= <-].
Qed.

Lemma trimEnd_first (s : string) (c : ascii) :
  first_char (trimEnd s) = Some c -> first_char s = Some c.
Proof.
  destruct s as [|x s]; simpl; [discriminate|].
  destruct (trimEnd s); [destruct (is_whitespace x)|]; simpl;
    try discriminate; auto.
Qed.

Lemma trimEnd_last (s : string) (c : ascii) :
  last_char (trimEnd s) = Some c -> is_whitespace c = false.
Proof.
  induction s as [|x s IH]; simpl; [discriminate|].
  destruct (trimEnd s) as [|y t] eqn:E.
  - destruct (is_whitespace x) eqn:Ex; simpl; [discriminate|].
    now intros [= <-].
  - exact IH.
Qed.

Lemma trimStart_fixed (s : string) :
  (forall c, first_char s = Some c -> is_whitespace c = false) ->
  trimStart s = s.
Proof.
  destruct s as [|x s]; simpl; [reflexivity|].
  intros H. now rewrite (H x eq_refl).
Qed.

Lemma trimEnd_idempotent (s : string) : trimEnd (trimEnd s) = trimEnd s.
Proof.
  induction s as [|x s IH]; simpl; [reflexivity|].
  destruct (trimEnd s) as [|y t] eqn:E.
  - destruct (is_whitespace x) eqn:Ex; simpl; [reflexivity|].
    now rewrite Ex.
  - simpl in *. rewrite IH. reflexivity.
Qed.

(** Every configured origin is clean: it holds no comma, it neither begins
    nor ends with white space, and trimming it again changes nothing;
    without the variable, or with an empty one, the only origin is [*]. *)
Theorem allowedOrigins_are_trimmed (ALLOWED_ORIGINS : option string)
    (origin : string) :
  In origin (allowedOrigins ALLOWED_ORIGINS) ->
  has_comma origin = false /\
  (forall c, first_char origin = Some c -> is_whitespace c = false) /\
  (forall c, last_char origin = Some c -> is_whitespace c = false) /\
  trim origin = origin /\
  ((ALLOWED_ORIGINS = None \/ ALLOWED_ORIGINS = Some "") -> origin = "*").
Proof.
  intros Hin.
  assert (Hstar : origin = "*" ->
            has_comma origin = false /\
            (forall c, first_char origin = Some c -> is_whitespace c = false) /\
            (forall c, last_char origin = Some c -> is_whitespace c = false) /\
            trim origin = origin).
  { intros ->. repeat split; simpl; intros c [= <-]; reflexivity. }
  unfold allowedOrigins in Hin. destruct ALLOWED_ORIGINS as [s|].
  - destruct (s =? "") eqn:E.
    + destruct Hin as [<-|[]].
      destruct (Hstar eq_refl) as [A [B [C D]]]. repeat split; auto.
    + apply in_map_iff in Hin as [piece [<- Hin]].
      assert (Hfirst : forall c, first_char (trim piece) = Some c ->
                                 is_whitespace c = false).
      { intros c H. apply trimEnd_first in H. now apply trimStart_first in H. }
      split; [apply has_comma_trim; now apply (split_comma_no_comma s)|].
      split; [exact Hfirst|]. split; [apply trimEnd_last|].
      split.
      * unfold trim at 1. rewrite (trimStart_fixed _ Hfirst).
        apply trimEnd_idempotent.
      * intros [H|H]; [discriminate|]. injection H as ->.
        discriminate E.
  - destruct Hin as [<-|[]].
    destruct (Hstar eq_refl) as [A [B [C D]]]. repeat split; auto.
Qed.

(** The server answers every origin exactly when the variable is unset or
    empty, or when one of its comma-separated pieces is [*] once trimmed,
    whatever the other pieces are; otherwise it answers the list of the
    trimmed pieces. *)
Theorem cors_origin_is_any_iff (ALLOWED_ORIGINS : option string) :
  (cors_origin (allowedOrigins ALLOWED_ORIGINS) = AnyOrigin <->
   ALLOWED_ORIGINS = None \/ ALLOWED_ORIGINS = Some "" \/
   exists s piece,
     ALLOWED_ORIGINS = Some s /\ In piece (split_comma s) /\
     trim piece = "*") /\
  (cors_origin (allowedOrigins ALLOWED_ORIGINS) <> AnyOrigin ->
   exists s,
     ALLOWED_ORIGINS = Some s /\
     cors_origin (allowedOrigins ALLOWED_ORIGINS) =
     Origins (map trim (split_comma s))).
Proof.
  unfold cors_origin, allowedOrigins. split.
  - destruct ALLOWED_ORIGINS as [s|]; [|split; [now left|reflexivity]].
    destruct (s =? "") eqn:E.
    + apply String.eqb_eq in E. subst. split; [|reflexivity].
      intros _. right. now left.
    + destruct (existsb (String.eqb "*") (map trim (split_comma s))) eqn:Ex.
      * split; [|reflexivity]. intros _. right. right.
        apply existsb_exists in Ex as [o [Hin Ho]].
        apply String.eqb_eq in Ho. subst o.
        apply in_map_iff in Hin as [piece [Ht Hin]].
        now exists s, piece.
      * split; [discriminate|].
        intros [H|[H|[s' [piece [H [Hin Ht]]]]]]; try discriminate H.
        -- injection H as ->. discriminate E.
        -- injection H as <-. exfalso.
           assert (existsb (String.eqb "*") (map trim (split_comma s))
                   = true); [|congruence].
           apply existsb_exists. exists "*". split; [|reflexivity].
           rewrite <- Ht. now apply in_map.
  - destruct ALLOWED_ORIGINS as [s|]; [|intros H; now elim H].
    destruct (s =? ""); [intros H; now elim H|].
    destruct (existsb (String.eqb "*") (map trim (split_comma s)));
      [intros H; now elim H|].
    intros _. now exists s.
Qed.

Lemma cors_origin_is_any_iff_witness :
  (cors_origin (allowedOrigins (Some "https://a.example, * ")) = AnyOrigin) /\
  (cors_origin (allowedOrigins (Some "https://a.example,https://b.example"))
   <> AnyOrigin /\
   cors_origin (allowedOrigins (Some "https://a.example,https://b.example"))
   = Origins ["https://a.example"; "https://b.example"]).
Proof.
  split.
  - apply (proj1 (cors_origin_is_any_iff (Some "https://a.example, * "))).
    right. right. exists "https://a.example, * ", " * ".
    split; [reflexivity|]. split; [right; now left|reflexivity].
  - assert (H : cors_origin
                  (allowedOrigins (Some "https://a.example,https://b.example"))
                <> AnyOrigin) by discriminate.
    split; [exact H|].
    destruct (proj2 (cors_origin_is_any_iff
                       (Some "https://a.example,https://b.example")) H)
      as [s [Hs ->]].
    injection Hs as <-. reflexivity.
Defined.

(* ===================================================================== *)
(** ** Closed instances *)
(* ===================================================================== *)

Lemma failed_listener_has_no_effect_witness :
  let o := on_event (runtime := Reference.runtime) Examples.noon
             Examples.phone1 (camera_status VUndefined)
             (srv_devices Examples.two_peers) in
  result o = inl TypeError /\
  sent o = [] /\ store o = srv_devices Examples.two_peers.
Proof.
  intros o. assert (H : result o = inl TypeError) by reflexivity.
  split; [exact H|].
  exact (failed_listener_has_no_effect (runtime := Reference.runtime)
           Examples.noon Examples.phone1 (camera_status VUndefined)
           (srv_devices Examples.two_peers) TypeError H).
Defined.

Lemma unicast_reaches_registered_target_only_witness :
  let devices := srv_devices Examples.two_peers in
  let e := Emission (ToRoom "C1") "GET_STATUS" (Data VNull) in
  In e (sent (on_event (runtime := Reference.runtime) Examples.noon
                Examples.dashboard (get_status (VStr "D")) devices)) /\
  dest e = ToRoom "C1" /\
  exists t d,
    target_id (runtime := Reference.runtime) (get_status (VStr "D"))
    = Some t /\ truthy t = true /\
    Map_get_value devices t = Some d /\ socketId d = "C1" /\ "C1" <> "".
Proof.
  intros devices e.
  assert (Hin : In e (sent (on_event (runtime := Reference.runtime)
                              Examples.noon Examples.dashboard
                              (get_status (VStr "D")) devices)))
    by (left; reflexivity).
  split; [exact Hin|]. split; [reflexivity|].
  exact (unicast_reaches_registered_target_only
           (runtime := Reference.runtime) Examples.noon Examples.dashboard
           (get_status (VStr "D")) devices e "C1" Hin eq_refl).
Defined.

Lemma targeted_events_never_broadcast_witness :
  targeted_without_fallback (get_config VUndefined) = true /\
  target_id (runtime := Reference.runtime) (get_config VUndefined)
  = Some VUndefined /\
  truthy VUndefined = false /\
  sent (on_event (runtime := Reference.runtime) Examples.noon
          Examples.dashboard (get_config VUndefined)
          (srv_devices Examples.two_peers)) = [].
Proof.
  split; [reflexivity|]. split; [reflexivity|]. split; [reflexivity|].
  exact (proj2 (targeted_events_never_broadcast
                  (runtime := Reference.runtime) Examples.noon
                  Examples.dashboard (get_config VUndefined)
                  (srv_devices Examples.two_peers) eq_refl)
           VUndefined eq_refl eq_refl).
Defined.

Lemma relayed_identity_is_the_senders_witness :
  let devices := srv_devices Examples.two_peers in
  let spoof := VObj [("deviceId", VStr "someone-else")] in
  let e := Emission ToAll "permission_report"
             (Data (VObj [("deviceId", VStr "D"); ("report", spoof)])) in
  attributed (permission_report spoof) = Some ("report", spoof) /\
  In e (sent (on_event (runtime := Reference.runtime) Examples.noon
                Examples.phone1 (permission_report spoof) devices)) /\
  exists k d,
    In (k, d) devices /\ socketId d = id Examples.phone1 /\
    truthy (key_value k) = true /\ dest e = ToAll /\
    args e = Data (VObj [("deviceId", key_value k); ("report", spoof)]).
Proof.
  intros devices spoof e.
  assert (Hin : In e (sent (on_event (runtime := Reference.runtime)
                              Examples.noon Examples.phone1
                              (permission_report spoof) devices)))
    by (left; reflexivity).
  split; [reflexivity|]. split; [exact Hin|].
  exact (relayed_identity_is_the_senders (runtime := Reference.runtime)
           Examples.noon Examples.phone1 (permission_report spoof) devices
           e "report" spoof eq_refl Hin).
Defined.

Lemma registration_routes_unicast_witness :
  let devices := srv_devices Examples.two_peers in
  let devices' := store (on_connection 7 Examples.phone2 devices) in
  (is_device Examples.phone2 = true /\
   query_deviceId (query Examples.phone2) = Some "D" /\
   "D" <> "" /\ id Examples.phone2 <> "" /\
   Map_get devices (Some "D") =
     Some {| socketId := "C1"; name := "Pixel";
             connectedAt := 5; lastSeen := None |}) /\
  sendToDevice (VStr "D") "STOP_CAM" VUndefined devices' =
    Outcome devices' [Emission (ToRoom "C2") "STOP_CAM" (Data VNull)]
      (inr tt) /\
  on_event (runtime := Reference.runtime) Examples.noon Examples.dashboard
    (get_status (VStr "D")) devices' =
    Outcome devices' [Emission (ToRoom "C2") "GET_STATUS" (Data VNull)]
      (inr tt).
Proof.
  intros devices devices'.
  assert (H1 : "D" <> "") by discriminate.
  assert (H2 : id Examples.phone2 <> "") by discriminate.
  split; [repeat split; assumption|].
  exact (registration_routes_unicast (runtime := Reference.runtime) 7
           Examples.phone2 Examples.dashboard devices "D" "STOP_CAM"
           VUndefined Examples.noon eq_refl eq_refl H1 H2).
Defined.

Lemma superseded_connection_is_orphaned_witness :
  let devices := srv_devices Examples.two_peers in
  let devices' := store (on_connection 7 Examples.phone2 devices) in
  (is_device Examples.phone2 = true /\
   id Examples.phone1 <> id Examples.phone2 /\
   NoDup (map fst devices) /\
   getDeviceIdBySocketId devices (id Examples.phone1) = Some (Some "D")) /\
  getDeviceIdBySocketId devices' (id Examples.phone1) = None /\
  on_event (runtime := Reference.runtime) Examples.noon Examples.phone1
    (audio_stream (VStr "pcm")) devices' = Outcome devices' [] (inr tt).
Proof.
  intros devices devices'.
  assert (Hne : id Examples.phone1 <> id Examples.phone2) by discriminate.
  assert (Hnd : NoDup (map fst devices)).
  { simpl. constructor; [intros []|constructor]. }
  assert (Hown : forall k d, In (k, d) devices ->
                             socketId d = id Examples.phone1 ->
                             k = query_deviceId (query Examples.phone2)).
  { intros k d [[= <- <-]|[]] _. reflexivity. }
  split; [repeat split; assumption|].
  destruct (superseded_connection_is_orphaned (runtime := Reference.runtime)
              7 Examples.phone1 Examples.phone2 devices Examples.noon
              (VStr "pcm") eq_refl Hne Hnd Hown) as [A [B _]].
  split; [exact A|exact B].
Defined.

Lemma session_leaves_no_residue_witness :
  let tablet := Socket "C9" (device_query (Some "T") None) in
  ~ In (id tablet) (map id (srv_sockets Examples.two_peers)) /\
  Map_get (srv_devices Examples.two_peers) (Some "T") = None /\
  next (step (runtime := Reference.runtime)
          (next (step (runtime := Reference.runtime) Examples.two_peers
                   (Connect tablet 8)))
          (Disconnect "C9")) = Examples.two_peers.
Proof.
  intros tablet.
  assert (Hfresh : ~ In (id tablet) (map id (srv_sockets Examples.two_peers))).
  { simpl. intros [H|[H|[]]]; discriminate H. }
  split; [exact Hfresh|]. split; [reflexivity|].
  exact (session_leaves_no_residue (runtime := Reference.runtime)
           Examples.two_peers tablet 8 Hfresh (fun _ => eq_refl)).
Defined.

Lemma getDeviceIdBySocketId_finds_the_entry_witness :
  let devices := srv_devices Examples.two_peers in
  let phone := {| socketId := "C1"; name := "Pixel";
                  connectedAt := 5; lastSeen := None |} in
  NoDup (map (fun kd => socketId (snd kd)) devices) /\
  In (Some "D", phone) devices /\
  getDeviceIdBySocketId devices "C1" = Some (Some "D") /\
  getDeviceIdBySocketId devices "W1" = None.
Proof.
  intros devices phone.
  assert (Hnd : NoDup (map (fun kd => socketId (snd kd)) devices)).
  { simpl. constructor; [intros []|constructor]. }
  assert (Hin : In (Some "D", phone) devices) by (left; reflexivity).
  split; [exact Hnd|]. split; [exact Hin|].
  destruct (getDeviceIdBySocketId_finds_the_entry devices "C1")
    as [_ [_ H]].
  split; [exact (H Hnd (Some "D") phone Hin eq_refl)|].
  apply (proj1 (getDeviceIdBySocketId_finds_the_entry devices "W1")).
  intros k d [[= <- <-]|[]]. discriminate.
Defined.

Lemma webrtc_text_or_object_witness :
  let payload := VObj [("targetId", VStr "ghost");
                       ("candidate", VStr "candidate:1")] in
  let on := on_event (runtime := Reference.runtime) Examples.noon
              Examples.dashboard in
  let devices := srv_devices Examples.two_peers in
  JSON_parse (JSRuntime := Reference.runtime) Examples.ice_for_ghost
  = Some payload /\
  get_prop payload "targetId" = inr (VStr "ghost") /\
  truthy (VStr "ghost") = true /\
  on (webrtc_offer (VStr Examples.ice_for_ghost)) devices =
    on (webrtc_offer payload) devices /\
  on (webrtc_ice_candidate (VStr Examples.ice_for_ghost)) devices =
    on (webrtc_ice_candidate payload) devices.
Proof.
  intros payload on devices.
  assert (H : JSON_parse (JSRuntime := Reference.runtime)
                Examples.ice_for_ghost = Some payload)
    by (vm_compute; reflexivity).
  split; [exact H|]. split; [reflexivity|]. split; [reflexivity|].
  exact (webrtc_text_or_object (runtime := Reference.runtime) Examples.noon
           Examples.dashboard devices _ payload (VStr "ghost")
           H eq_refl eq_refl).
Defined.

Lemma heartbeat_refreshes_lastSeen_witness :
  let ins := [Connect Examples.phone1 5; Connect Examples.dashboard 6] in
  let devices := srv_devices (next (run (runtime := Reference.runtime)
                                      boot ins)) in
  getDeviceIdBySocketId devices (id Examples.phone1) = Some (Some "D") /\
  truthy (key_value (Some "D")) = true /\
  exists d,
    Map_get devices (Some "D") = Some d /\ socketId d = id Examples.phone1 /\
    let devices' := store (on_event (runtime := Reference.runtime)
                             Examples.noon Examples.phone1 (heartbeat 3)
                             devices) in
    Map_get devices' (Some "D")
    = Some (set_lastSeen d (Examples.noon 2%nat)) /\
    (forall k', k' <> Some "D" -> Map_get devices' k' = Map_get devices k') /\
    map fst devices' = map fst devices.
Proof.
  intros ins devices. split; [reflexivity|]. split; [reflexivity|].
  exact (heartbeat_refreshes_lastSeen (runtime := Reference.runtime) ins
           Examples.phone1 3 Examples.noon (Some "D") eq_refl eq_refl).
Defined.

Lemma registry_entries_are_live_witness :
  let ins := [Connect Examples.phone1 5; Connect Examples.dashboard 6;
              Message "C1" (heartbeat 3) Examples.noon;
              Connect Examples.anonymous1 7; Disconnect "W1"] in
  let srv := next (run (runtime := Reference.runtime) boot ins) in
  fresh_connects [] ins = true /\
  (forall k d, In (k, d) (srv_devices srv) ->
     exists s, In s (srv_sockets srv) /\ id s = socketId d /\
               is_device s = true /\ query_deviceId (query s) = k) /\
  NoDup (map (fun kd => socketId (snd kd)) (srv_devices srv)).
Proof.
  intros ins srv. split; [reflexivity|].
  exact (registry_entries_are_live (runtime := Reference.runtime) ins
           eq_refl).
Defined.

Lemma upload_without_name_witness :
  truthy (VStr "") = false /\
  (Z.of_nat (List.length [9%Z; 8%Z]) <= max_data_length)%Z /\
  upload_audio_file 1700000000000 (VStr "") (Binary [9%Z; 8%Z]) =
  WriteFile "audio_1700000000000.wav" (header_bytes 2 ++ [9%Z; 8%Z])%list.
Proof.
  assert (H : (Z.of_nat (List.length [9%Z; 8%Z]) <= max_data_length)%Z)
    by (unfold max_data_length; simpl; lia).
  split; [reflexivity|]. split; [exact H|].
  exact (upload_without_name 1700000000000 (VStr "") [9%Z; 8%Z] eq_refl H).
Defined.

Lemma allowedOrigins_are_trimmed_witness :
  let env := Some " https://a.example ,https://b.example" in
  allowedOrigins env = ["https://a.example"; "https://b.example"] /\
  In "https://a.example" (allowedOrigins env) /\
  has_comma "https://a.example" = false /\
  trim "https://a.example" = "https://a.example".
Proof.
  intros env.
  assert (Hin : In "https://a.example" (allowedOrigins env))
    by (left; reflexivity).
  split; [reflexivity|]. split; [exact Hin|].
  destruct (allowedOrigins_are_trimmed env _ Hin) as [A [_ [_ [D _]]]].
  split; [exact A|exact D].
Defined.
